(** * EarthDaylightSim: orientation and camera-control model

    A shallow embedding of the astronomical model and of the orbit camera
    controller of [src/main.js] (orthographic variant, then perspective
    variant with camera tilt) and of [src/unnamed/part_000] (the earliest
    variant, whose camera code lives in [handleMouseMove]), of the frame
    driver [animate] and of the clock and date widgets of [src/time.js].

    JavaScript numbers are modelled as real numbers ([R]); time values of
    [Date] objects are integers ([Z], milliseconds since the epoch). *)

From Stdlib Require Import ZArith Reals Lra Lia List Bool String Factorial.
From Stdlib Require Import DecimalString.
Import ListNotations.
Local Open Scope string_scope.

(* ================================================================== *)
(** * The host's [Date] object (ECMAScript time values)               *)
(* ================================================================== *)

(** The functions below follow the abstract operations of the ECMAScript
    specification that [Date] is built from.  Local time is modelled with
    a fixed zone offset [tza] (milliseconds east of UTC). *)
Module JSDate.
Local Open Scope Z_scope.

Definition msPerMinute : Z := 60000.
Definition msPerHour : Z := 3600000.
Definition msPerDay : Z := 86400000.
Definition maxTime : Z := 8640000000000000.

Definition Day (t : Z) : Z := t / msPerDay.

Definition DaysInYear (y : Z) : Z :=
  if negb (y mod 4 =? 0) then 365
  else if negb (y mod 100 =? 0) then 366
  else if negb (y mod 400 =? 0) then 365
  else 366.

Definition InLeapYear_of_year (y : Z) : bool := DaysInYear y =? 366.

Definition DayFromYear (y : Z) : Z :=
  365 * (y - 1970) + (y - 1969) / 4 - (y - 1901) / 100 + (y - 1601) / 400.

Definition TimeFromYear (y : Z) : Z := msPerDay * DayFromYear y.

(** [YearFromTime t] is the largest [y] with [TimeFromYear y <= t]; it is
    computed from the mean year length (146097 days in 400 years) and one
    correction step, see [YearFromTime_spec]. *)
Definition YearFromTime (t : Z) : Z :=
  let d := Day t in
  let y := 1970 + (400 * d) / 146097 in
  if d <? DayFromYear y then y - 1
  else if DayFromYear (y + 1) <=? d then y + 1
  else y.

Definition HourFromTime (t : Z) : Z := (t / msPerHour) mod 24.
Definition MinFromTime (t : Z) : Z := (t / msPerMinute) mod 60.

(** Day number, within its year, of the first day of month [m] (0-11). *)
Definition monthStart (leap : bool) (m : Z) : Z :=
  let l := if leap then 1 else 0 in
  match m with
  | 0 => 0
  | 1 => 31
  | 2 => 59 + l
  | 3 => 90 + l
  | 4 => 120 + l
  | 5 => 151 + l
  | 6 => 181 + l
  | 7 => 212 + l
  | 8 => 243 + l
  | 9 => 273 + l
  | 10 => 304 + l
  | _ => 334 + l
  end.

Definition MakeDay (year month date : Z) : Z :=
  let ym := year + month / 12 in
  let mn := month mod 12 in
  DayFromYear ym + monthStart (InLeapYear_of_year ym) mn + date - 1.

Definition MakeDate (day time : Z) : Z := day * msPerDay + time.

Definition LocalTime (tza t : Z) : Z := t + tza.
Definition UTC (tza t : Z) : Z := t - tza.

(** [TimeClip]: a time value outside +-8.64e15 ms is not a date ([None]
    stands for the invalid date, whose time value is NaN). *)
Definition TimeClip (t : Z) : option Z :=
  if Z.abs t <=? maxTime then Some t else None.

Definition validTime (t : Z) : Prop := - maxTime <= t <= maxTime.

(** [new Date(year, month, date)]: years 0 to 99 stand for 1900 to 1999;
    the fields are read as local time. *)
Definition newDate (tza year month date : Z) : option Z :=
  let yr := if (0 <=? year) && (year <=? 99) then 1900 + year else year in
  TimeClip (UTC tza (MakeDate (MakeDay yr month date) 0)).

Definition getFullYear (tza t : Z) : Z := YearFromTime (LocalTime tza t).
Definition getUTCHours (t : Z) : Z := HourFromTime t.
Definition getUTCMinutes (t : Z) : Z := MinFromTime t.

Definition SecFromTime (t : Z) : Z := (t / 1000) mod 60.

Definition DayWithinYear (t : Z) : Z := Day t - DayFromYear (YearFromTime t).

Definition InLeapYear (t : Z) : Z :=
  if DaysInYear (YearFromTime t) =? 366 then 1 else 0.

Definition MonthFromTime (t : Z) : Z :=
  let d := DayWithinYear t in
  let l := InLeapYear t in
  if d <? 31 then 0
  else if d <? 59 + l then 1
  else if d <? 90 + l then 2
  else if d <? 120 + l then 3
  else if d <? 151 + l then 4
  else if d <? 181 + l then 5
  else if d <? 212 + l then 6
  else if d <? 243 + l then 7
  else if d <? 273 + l then 8
  else if d <? 304 + l then 9
  else if d <? 334 + l then 10
  else 11.

Definition DateFromTime (t : Z) : Z :=
  let d := DayWithinYear t in
  let l := InLeapYear t in
  match MonthFromTime t with
  | 0 => d + 1
  | 1 => d - 30
  | 2 => d - 58 - l
  | 3 => d - 89 - l
  | 4 => d - 119 - l
  | 5 => d - 150 - l
  | 6 => d - 180 - l
  | 7 => d - 211 - l
  | 8 => d - 242 - l
  | 9 => d - 272 - l
  | 10 => d - 303 - l
  | _ => d - 333 - l
  end.

Definition getHours (tza t : Z) : Z := HourFromTime (LocalTime tza t).
Definition getMinutes (tza t : Z) : Z := MinFromTime (LocalTime tza t).
Definition getSeconds (tza t : Z) : Z := SecFromTime (LocalTime tza t).
Definition getMonth (tza t : Z) : Z := MonthFromTime (LocalTime tza t).
Definition getDate (tza t : Z) : Z := DateFromTime (LocalTime tza t).

End JSDate.

(* ================================================================== *)
(** * Shared vocabulary: constants, vectors, the three.js camera       *)
(* ================================================================== *)

Local Open Scope R_scope.

(** Constants of [src/main.js] ([GMTOffset], [RadPerMinute] and
    [SunlightDistance] are the same in all three variants). *)
Definition GMTOffset : R := - PI.
Definition RadPerMinute : R := 2 * PI / 1440.
Definition SunlightDistance : R := 5.
Definition DefaultCameraDistance : R := 1.5.
Definition CameraDistance : R := 2.2.

Record vec3 : Type := mkVec3 { vx : R; vy : R; vz : R }.

Definition origin : vec3 := mkVec3 0 0 0.

(** Euclidean distance of a point to the origin. *)
Definition distanceToOrigin (v : vec3) : R :=
  sqrt (vx v * vx v + vy v * vy v + vz v * vz v).

(** Orientation of a three.js camera, kept symbolically: the orientation
    that [lookAt] computes for an eye at [look_from] facing [look_to],
    followed by a rotation of [roll_z] radians about the camera's own
    z axis (what adding to [camera.rotation.z] does). *)
Record Orientation : Type := mkOrientation {
  look_from : vec3;
  look_to : vec3;
  roll_z : R
}.

Record Camera : Type := mkCamera {
  position : vec3;
  orientation : Orientation
}.

(** [camera.position.set(x, y, z)] *)
Definition position_set (x y z : R) (c : Camera) : Camera :=
  mkCamera (mkVec3 x y z) (orientation c).

(** [camera.lookAt(target)]: the orientation is recomputed from the
    current position; an earlier roll is lost. *)
Definition lookAt (target : vec3) (c : Camera) : Camera :=
  mkCamera (position c) (mkOrientation (position c) target 0).

(** [camera.rotation.z += a] *)
Definition rotation_z_add (a : R) (c : Camera) : Camera :=
  mkCamera (position c)
    (mkOrientation (look_from (orientation c)) (look_to (orientation c))
       (roll_z (orientation c) + a)).

(** [earth.position] is set to the origin once and never moved. *)
Definition earth_position : vec3 := origin.

(** Pointer state shared by the mouse handlers. [dragStartX] and
    [dragStartY] are undefined before the first mouse-down; they are not
    read before it, and start at 0 here. *)
Record Drag : Type := mkDrag {
  isDragging : bool;
  dragStartX : R;
  dragStartY : R
}.

Record PointerEvent : Type := mkPointerEvent { clientX : R; clientY : R }.

Definition handleMouseDown (event : PointerEvent) (d : Drag) : Drag :=
  mkDrag true (clientX event) (clientY event).

Definition handleMouseUp (d : Drag) : Drag :=
  mkDrag false (dragStartX d) (dragStartY d).

(** The part of the scene that the astronomical model writes:
    [earth.rotation.y] and [directionalLight.position]. *)
Record Scene : Type := mkScene {
  earth_rotation_y : R;
  light_position : vec3
}.

Definition key_in (k : string) (ks : list string) : bool :=
  existsb (String.eqb k) ks.

(* ================================================================== *)
(** * Astronomical model                                               *)
(* ================================================================== *)

Module Astro.
Import JSDate.

(** [now.getUTCHours() * 60 + now.getUTCMinutes()] *)
Definition UTCMinutes (now : Z) : Z :=
  (getUTCHours now * 60 + getUTCMinutes now)%Z.

(** Body of [updateEarthRotation] / [updateRotationY]; [now] is the time
    value of [new Date()]. *)
Definition updateEarthRotation (now : Z) (sc : Scene) : Scene :=
  mkScene (IZR (UTCMinutes now) * RadPerMinute + GMTOffset - PI / 2)
          (light_position sc).

(** [new Date(time.getFullYear(), 0, 0)] *)
Definition startOfYear (tza time : Z) : option Z :=
  newDate tza (getFullYear tza time) 0 0.

(** [Math.floor((time - startOfYear) / (1000 * 60 * 60 * 24))]; the
    difference is an integer number of milliseconds, so the floor of the
    quotient is the integer quotient.  [None] is NaN. *)
Definition dayOfYear (tza time : Z) : option Z :=
  match startOfYear tza time with
  | Some s => Some ((time - s) / (1000 * 60 * 60 * 24))%Z
  | None => None
  end.

(** [0.398 * Math.cos(2 * PI * (dayOfYear - 173) / 365.242)] *)
Definition sunlightAngleSINE (dayOfYear : Z) : R :=
  0.398 * cos (2 * PI * (IZR dayOfYear - 173) / 365.242).

(** The value [getSunlightAngle] returns for a given day of the year. *)
Definition sunlightAngleOfDay (dayOfYear : Z) : R :=
  asin (sunlightAngleSINE dayOfYear).

Definition getSunlightAngle (tza time : Z) : option R :=
  option_map sunlightAngleOfDay (dayOfYear tza time).

(** [sunlightAngleSINE / Math.sqrt(1 - sunlightAngleSINE * sunlightAngleSINE)] *)
Definition sunlightAngleTANGENT (dayOfYear : Z) : R :=
  sunlightAngleSINE dayOfYear
  / sqrt (1 - sunlightAngleSINE dayOfYear * sunlightAngleSINE dayOfYear).

(** y-displacement of the light in the orthographic variant of
    [src/main.js], through [Math.tan] of [getSunlightAngle]. *)
Definition lightY_asin (dayOfYear : Z) : R :=
  SunlightDistance * tan (sunlightAngleOfDay dayOfYear).

(** y-displacement of the light in the two other variants, without an
    inverse trigonometric call. *)
Definition lightY_tangent (dayOfYear : Z) : R :=
  SunlightDistance * sunlightAngleTANGENT dayOfYear.

(** [updateSunlightAngle] of the orthographic variant. [None]: the light
    would be placed at a NaN height. *)
Definition updateSunlightAngle_asin (tza now : Z) (sc : Scene)
  : option Scene :=
  match getSunlightAngle tza now with
  | Some sunlightAngle =>
      Some (mkScene (earth_rotation_y sc)
              (mkVec3 0 (SunlightDistance * tan sunlightAngle)
                 SunlightDistance))
  | None => None
  end.

(** [updateSunlightAngle] of the perspective variant and [updateRotationX]
    of [part_000]. *)
Definition updateSunlightAngle_tangent (tza now : Z) (sc : Scene)
  : option Scene :=
  match dayOfYear tza now with
  | Some d =>
      Some (mkScene (earth_rotation_y sc)
              (mkVec3 0 (SunlightDistance * sunlightAngleTANGENT d)
                 SunlightDistance))
  | None => None
  end.

(** Following the specification's words instead of the source: the start
    of the year as midnight of January 1 of the date's year, and the day
    of the year counted from it. *)
Definition spec_startOfYear (tza time : Z) : Z :=
  UTC tza (TimeFromYear (getFullYear tza time)).

Definition spec_dayOfYear (tza time : Z) : Z :=
  ((time - spec_startOfYear tza time) / 86400000)%Z.

End Astro.

(* ================================================================== *)
(** * Orbit camera, orthographic variant (first file of [src/main.js]) *)
(* ================================================================== *)

Module Ortho.

(** View volume of the orthographic camera. *)
Record Frustum : Type := mkFrustum {
  cam_left : R;
  cam_right : R;
  cam_top : R;
  cam_bottom : R
}.

Record State : Type := mkState {
  cameraDistance : R;
  cameraTheta : R;
  cameraPhi : R;
  camera : Camera;
  frustum : Frustum;
  root_rotation_x : R;
  drag : Drag;
  noonMarker_visible : bool;
  midnightMarker_visible : bool;
  pole_visible : bool
}.

Definition with_orbit (dist theta phi : R) (c : Camera) (s : State) : State :=
  mkState dist theta phi c (frustum s) (root_rotation_x s) (drag s)
    (noonMarker_visible s) (midnightMarker_visible s) (pole_visible s).

Definition with_cameraDistance (dist : R) (s : State) : State :=
  with_orbit dist (cameraTheta s) (cameraPhi s) (camera s) s.

Definition with_frustum (f : Frustum) (s : State) : State :=
  mkState (cameraDistance s) (cameraTheta s) (cameraPhi s) (camera s) f
    (root_rotation_x s) (drag s)
    (noonMarker_visible s) (midnightMarker_visible s) (pole_visible s).

Definition with_root_rotation_x (a : R) (s : State) : State :=
  mkState (cameraDistance s) (cameraTheta s) (cameraPhi s) (camera s)
    (frustum s) a (drag s)
    (noonMarker_visible s) (midnightMarker_visible s) (pole_visible s).

Definition with_drag (d : Drag) (s : State) : State :=
  mkState (cameraDistance s) (cameraTheta s) (cameraPhi s) (camera s)
    (frustum s) (root_rotation_x s) d
    (noonMarker_visible s) (midnightMarker_visible s) (pole_visible s).

Definition with_visible (noon midnight pole : bool) (s : State) : State :=
  mkState (cameraDistance s) (cameraTheta s) (cameraPhi s) (camera s)
    (frustum s) (root_rotation_x s) (drag s) noon midnight pole.

(** State after the module's top-level code has run, for a window of the
    given aspect ratio. *)
Definition initial (aspect : R) : State :=
  let d := DefaultCameraDistance in
  mkState d (PI / 2) (PI / 2)
    (mkCamera (mkVec3 0 0 d) (mkOrientation (mkVec3 0 0 d) origin 0))
    (mkFrustum (- d * aspect) (d * aspect) d (- d))
    0 (mkDrag false 0 0) false false false.

Definition moveSphericCamera (deltaX deltaY : R) (s : State) : State :=
  let theta := cameraTheta s + deltaX * 0.01 in
  let phi := cameraPhi s - deltaY * 0.01 in
  let phi := Rmax (Rmin phi PI) 0.001 in
  let x := cameraDistance s * sin phi * cos theta in
  let z := cameraDistance s * sin phi * sin theta in
  let y := cameraDistance s * cos phi in
  with_orbit (cameraDistance s) theta phi
    (lookAt earth_position (position_set x y z (camera s))) s.

Definition resetCamera (s : State) : State :=
  let d := DefaultCameraDistance in
  with_orbit d (PI / 2) (PI / 2)
    (lookAt earth_position (position_set 0 0 d (camera s))) s.

Definition tiltScene (deltaZ : R) (s : State) : State :=
  let tilt := root_rotation_x s in
  let tilt := tilt + deltaZ * 0.01 in
  let tilt := Rmax (Rmin tilt (PI / 2)) (- PI / 2) in
  with_root_rotation_x tilt s.

Definition handleMouseMove (event : PointerEvent) (s : State) : State :=
  if negb (isDragging (drag s)) then s
  else
    let deltaX := clientX event - dragStartX (drag s) in
    let deltaY := clientY event - dragStartY (drag s) in
    moveSphericCamera deltaX deltaY
      (with_drag (mkDrag true (clientX event) (clientY event)) s).

(** [aspect] is [window.innerWidth / window.innerHeight] when called. *)
Definition handleResize (aspect : R) (s : State) : State :=
  let d := cameraDistance s in
  with_frustum (mkFrustum (- d * aspect) (d * aspect) d (- d)) s.

Definition handleKeyDown (aspect : R) (key : string) (s : State) : State :=
  if key_in key ["q"; "Q"] then tiltScene (-1) s
  else if key_in key ["e"; "E"] then tiltScene 1 s
  else if key_in key ["w"; "W"; "ArrowUp"] then moveSphericCamera 0 1 s
  else if key_in key ["s"; "S"; "ArrowDown"] then moveSphericCamera 0 (-1) s
  else if key_in key ["a"; "A"; "ArrowLeft"] then moveSphericCamera 1 0 s
  else if key_in key ["d"; "D"; "ArrowRight"] then moveSphericCamera (-1) 0 s
  else if key_in key ["z"; "Z"] then
    let d := cameraDistance s * 1.1 in
    let d := Rmin d 10 in
    handleResize aspect (with_cameraDistance d s)
  else if key_in key ["c"; "C"] then
    let d := cameraDistance s * 0.9 in
    let d := Rmax d 1 in
    handleResize aspect (with_cameraDistance d s)
  else s.

(** [None]: the key aligns the scene with the ecliptic and the sun angle
    is NaN. *)
Definition handleKeyUp (tza now : Z) (aspect : R) (key : string) (s : State)
  : option State :=
  if key_in key ["r"; "R"] then Some (handleResize aspect (resetCamera s))
  else if key_in key ["f"; "F"] then Some (with_root_rotation_x 0 s)
  else if key_in key ["v"; "V"] then
    option_map (fun a => with_root_rotation_x a s)
      (Astro.getSunlightAngle tza now)
  else if key_in key ["t"; "T"] then
    Some (with_visible (negb (noonMarker_visible s))
            (negb (midnightMarker_visible s)) (pole_visible s) s)
  else if key_in key ["g"; "G"] then
    Some (with_visible (noonMarker_visible s) (midnightMarker_visible s)
            (negb (pole_visible s)) s)
  else Some s.

Definition updateEarthRotation := Astro.updateEarthRotation.
Definition updateSunlightAngle := Astro.updateSunlightAngle_asin.

(** A run of drags and a run of key presses. *)
Definition drags (ds : list (R * R)) (s : State) : State :=
  fold_left (fun st d => moveSphericCamera (fst d) (snd d) st) ds s.

Definition keyDowns (aspect : R) (keys : list string) (s : State) : State :=
  fold_left (fun st k => handleKeyDown aspect k st) keys s.

(** State-level [handleMouseDown] and [handleMouseUp]. *)
Definition handleMouseDown (event : PointerEvent) (s : State) : State :=
  with_drag (handleMouseDown event (drag s)) s.

Definition handleMouseUp (s : State) : State :=
  with_drag (handleMouseUp (drag s)) s.

(** The events the window delivers, each with what its handler reads
    from the environment when it runs: the aspect ratio of the window
    and, for a key release, the time value of [new Date()]. *)
Inductive Event : Type :=
| Resize (aspect : R)
| MouseDown (e : PointerEvent)
| MouseUp
| MouseMove (e : PointerEvent)
| KeyDown (aspect : R) (key : string)
| KeyUp (now : Z) (aspect : R) (key : string).

Definition dispatch (tza : Z) (ev : Event) (s : State) : option State :=
  match ev with
  | Resize aspect => Some (handleResize aspect s)
  | MouseDown e => Some (handleMouseDown e s)
  | MouseUp => Some (handleMouseUp s)
  | MouseMove e => Some (handleMouseMove e s)
  | KeyDown aspect key => Some (handleKeyDown aspect key s)
  | KeyUp now aspect key => handleKeyUp tza now aspect key s
  end.

Fixpoint run (tza : Z) (evs : list Event) (s : State) : option State :=
  match evs with
  | [] => Some s
  | ev :: evs' =>
      match dispatch tza ev s with
      | Some s' => run tza evs' s'
      | None => None
      end
  end.

(** A series of mouse moves. *)
Definition moves (es : list PointerEvent) (s : State) : State :=
  fold_left (fun st e => handleMouseMove e st) es s.

(** The ranges the clamps of this variant keep. *)
Definition state_ok (s : State) : Prop :=
  1 <= cameraDistance s <= 10
  /\ 0.001 <= cameraPhi s <= PI
  /\ - PI / 2 <= root_rotation_x s <= PI / 2.

(** The view volume is the one [handleResize] computes from the current
    camera distance for a window of the given aspect ratio. *)
Definition frustum_fits (aspect : R) (s : State) : Prop :=
  frustum s
  = mkFrustum (- cameraDistance s * aspect) (cameraDistance s * aspect)
      (cameraDistance s) (- cameraDistance s).

(** The aspect ratio an event was handled with, if it read one. *)
Definition event_aspect (aspect : R) (ev : Event) : Prop :=
  match ev with
  | Resize a | KeyDown a _ | KeyUp _ a _ => a = aspect
  | _ => True
  end.

End Ortho.

(* ================================================================== *)
(** * Orbit camera, perspective variant with camera tilt
      (second file of [src/main.js])                                   *)
(* ================================================================== *)

Module Persp.

Record State : Type := mkState {
  cameraTheta : R;
  cameraPhi : R;
  cameraTilt : R;
  camera : Camera;
  drag : Drag
}.

Definition initial : State :=
  mkState (PI / 2) (PI / 2) 0
    (mkCamera (mkVec3 0 0 CameraDistance)
       (mkOrientation (mkVec3 0 0 CameraDistance) origin 0))
    (mkDrag false 0 0).

Definition moveSphericCamera (deltaX deltaY : R) (s : State) : State :=
  let cameraTilt := cameraTilt s in
  let deltaXRotated :=
    deltaX * cos (- cameraTilt) - deltaY * sin (- cameraTilt) in
  let deltaYRotated :=
    deltaX * sin (- cameraTilt) + deltaY * cos (- cameraTilt) in
  let theta := cameraTheta s + deltaXRotated * 0.01 in
  let phi := cameraPhi s - deltaYRotated * 0.01 in
  let phi := Rmax (Rmin phi PI) 0.001 in
  let x := CameraDistance * sin phi * cos theta in
  let z := CameraDistance * sin phi * sin theta in
  let y := CameraDistance * cos phi in
  mkState theta phi cameraTilt
    (rotation_z_add cameraTilt
       (lookAt earth_position (position_set x y z (camera s))))
    (drag s).

Definition resetCamera (s : State) : State :=
  mkState (PI / 2) (PI / 2) 0
    (lookAt earth_position (position_set 0 0 CameraDistance (camera s)))
    (drag s).

Definition tiltCamera (deltaZ : R) (s : State) : State :=
  let c := rotation_z_add (- cameraTilt s) (camera s) in
  let tilt := cameraTilt s + deltaZ * 0.05 in
  let tilt := Rmax (Rmin tilt (PI / 2)) (- PI / 2) in
  mkState (cameraTheta s) (cameraPhi s) tilt (rotation_z_add tilt c) (drag s).

Definition handleMouseMove (event : PointerEvent) (s : State) : State :=
  if negb (isDragging (drag s)) then s
  else
    let deltaX := clientX event - dragStartX (drag s) in
    let deltaY := clientY event - dragStartY (drag s) in
    moveSphericCamera deltaX deltaY
      (mkState (cameraTheta s) (cameraPhi s) (cameraTilt s) (camera s)
         (mkDrag true (clientX event) (clientY event))).

Definition handleKeyDown (key : string) (s : State) : State :=
  if key_in key ["q"; "Q"] then tiltCamera (-1) s
  else if key_in key ["e"; "E"] then tiltCamera 1 s
  else if key_in key ["w"; "W"] then moveSphericCamera 0 1 s
  else if key_in key ["s"; "S"] then moveSphericCamera 0 (-1) s
  else if key_in key ["a"; "A"] then moveSphericCamera 1 0 s
  else if key_in key ["d"; "D"] then moveSphericCamera (-1) 0 s
  else if key_in key ["f"; "F"] then
    mkState (cameraTheta s) (cameraPhi s) 0
      (rotation_z_add (- cameraTilt s) (camera s)) (drag s)
  else if key_in key ["r"; "R"] then resetCamera s
  else s.

Definition updateEarthRotation := Astro.updateEarthRotation.
Definition updateSunlightAngle := Astro.updateSunlightAngle_tangent.

Definition drags (ds : list (R * R)) (s : State) : State :=
  fold_left (fun st d => moveSphericCamera (fst d) (snd d) st) ds s.

(** Following the specification's words: the raw drag delta turned by
    an angle [a] with a 2D rotation matrix. *)
Definition rotate2D (a : R) (d : R * R) : R * R :=
  (fst d * cos a - snd d * sin a, fst d * sin a + snd d * cos a).

Definition handleMouseDown (event : PointerEvent) (s : State) : State :=
  mkState (cameraTheta s) (cameraPhi s) (cameraTilt s) (camera s)
    (handleMouseDown event (drag s)).

Definition handleMouseUp (s : State) : State :=
  mkState (cameraTheta s) (cameraPhi s) (cameraTilt s) (camera s)
    (handleMouseUp (drag s)).

Inductive Event : Type :=
| MouseDown (e : PointerEvent)
| MouseUp
| MouseMove (e : PointerEvent)
| KeyDown (key : string).

Definition dispatch (s : State) (ev : Event) : State :=
  match ev with
  | MouseDown e => handleMouseDown e s
  | MouseUp => handleMouseUp s
  | MouseMove e => handleMouseMove e s
  | KeyDown key => handleKeyDown key s
  end.

Definition run (evs : list Event) (s : State) : State :=
  fold_left dispatch evs s.

(** The roll of the camera is the tilt the controller remembers. *)
Definition roll_is_tilt (s : State) : Prop :=
  roll_z (orientation (camera s)) = cameraTilt s.

Definition state_ok (s : State) : Prop :=
  roll_is_tilt s /\ - PI / 2 <= cameraTilt s <= PI / 2.

End Persp.

(* ================================================================== *)
(** * Orbit camera of [src/unnamed/part_000]                           *)
(* ================================================================== *)

Module Legacy.

Record Angle : Type := mkAngle { theta : R; phi : R }.

Record State : Type := mkState {
  sphericalCameraAngle : Angle;
  camera : Camera;
  drag : Drag
}.

(** [let cameraDist = camera.position.z], read once right after the
    camera was placed at [z = CameraDistance], and never assigned again. *)
Definition cameraDist : R := CameraDistance.

Definition initial : State :=
  mkState (mkAngle (PI / 2) (PI / 2))
    (mkCamera (mkVec3 0 0 CameraDistance)
       (mkOrientation (mkVec3 0 0 CameraDistance) origin 0))
    (mkDrag false 0 0).

Definition handleMouseMove (event : PointerEvent) (s : State) : State :=
  if negb (isDragging (drag s)) then s
  else
    let deltaX := clientX event - dragStartX (drag s) in
    let deltaY := clientY event - dragStartY (drag s) in
    let d := mkDrag true (clientX event) (clientY event) in
    let theta := theta (sphericalCameraAngle s) in
    let phi := phi (sphericalCameraAngle s) in
    let theta := theta + deltaX * 0.01 in
    let phi := phi - deltaY * 0.01 in
    let phi := Rmax (Rmin phi (PI - 0.1)) 0.1 in
    let x := cameraDist * sin phi * cos theta in
    let z := cameraDist * sin phi * sin theta in
    let y := cameraDist * cos phi in
    mkState (mkAngle theta phi)
      (lookAt earth_position (position_set x y z (camera s))) d.

Definition handleMouseDown (event : PointerEvent) (s : State) : State :=
  mkState (sphericalCameraAngle s) (camera s)
    (handleMouseDown event (drag s)).

Definition handleMouseUp (s : State) : State :=
  mkState (sphericalCameraAngle s) (camera s) (handleMouseUp (drag s)).

Definition updateRotationY := Astro.updateEarthRotation.
Definition updateRotationX := Astro.updateSunlightAngle_tangent.

(** Mouse events as the window delivers them. *)
Inductive MouseEvent : Type :=
| MouseDown (e : PointerEvent)
| MouseMove (e : PointerEvent)
| MouseUp.

Definition dispatch (s : State) (ev : MouseEvent) : State :=
  match ev with
  | MouseDown e => handleMouseDown e s
  | MouseMove e => handleMouseMove e s
  | MouseUp => handleMouseUp s
  end.

Definition run (evs : list MouseEvent) (s : State) : State :=
  fold_left dispatch evs s.

(** A series of mouse moves. *)
Definition moves (es : list PointerEvent) (s : State) : State :=
  fold_left (fun st e => handleMouseMove e st) es s.

(** The polar angle is within the bounds of the clamp. *)
Definition phi_ok (s : State) : Prop :=
  0.1 <= phi (sphericalCameraAngle s) <= PI - 0.1.

End Legacy.

(* ================================================================== *)
(** * Frame driver ([animate], the same in the three variants)         *)
(* ================================================================== *)

Module FrameDriver.

Definition UpdateInterval : R := 60.

(** [lastEarthUpdate] and [lastSunlightUpdate] ([lastYTime] and
    [lastXTime] in [part_000]). *)
Record Timers : Type := mkTimers {
  lastEarthUpdate : R;
  lastSunlightUpdate : R
}.

Definition initial : Timers := mkTimers 0 0.

(** What one call of [animate] calls, in order. *)
Inductive Call : Type :=
| CallUpdateEarthRotation
| CallUpdateSunlightAngle
| CallRender.

Definition Call_eqb (a b : Call) : bool :=
  match a, b with
  | CallUpdateEarthRotation, CallUpdateEarthRotation
  | CallUpdateSunlightAngle, CallUpdateSunlightAngle
  | CallRender, CallRender => true
  | _, _ => false
  end.

(** [animate(time)]: the new timers and the calls made. *)
Definition animate (time : R) (t : Timers) : Timers * list Call :=
  let earth :=
    if Rlt_dec (1000 * UpdateInterval) (time - lastEarthUpdate t)
    then (time, [CallUpdateEarthRotation])
    else (lastEarthUpdate t, []) in
  let sun :=
    if Rlt_dec (1000 * 3600) (time - lastSunlightUpdate t)
    then (time, [CallUpdateSunlightAngle])
    else (lastSunlightUpdate t, []) in
  (mkTimers (fst earth) (fst sun),
   (snd earth ++ snd sun ++ [CallRender])%list).

(** A run of animation frames, with the calls of each frame tagged by
    the time stamp of the frame. *)
Fixpoint frames (times : list R) (t : Timers) : Timers * list (R * Call) :=
  match times with
  | [] => (t, [])
  | time :: times' =>
      let (t1, calls) := animate time t in
      let (t2, trace) := frames times' t1 in
      (t2, (map (pair time) calls ++ trace)%list)
  end.

(** Time stamps of the frames in which a given call was made. *)
Definition times_of (c : Call) (trace : list (R * Call)) : list R :=
  map fst (filter (fun x => Call_eqb (snd x) c) trace).

(** Each element is more than [gap] after the one before it, the first
    one more than [gap] after [start]. *)
Fixpoint spaced (gap start : R) (l : list R) : Prop :=
  match l with
  | [] => True
  | x :: l' => gap < x - start /\ spaced gap x l'
  end.

End FrameDriver.

(* ================================================================== *)
(** * Clock and date widgets ([src/time.js])                          *)
(* ================================================================== *)

Module Clock.
Import JSDate.
Local Open Scope string_scope.

(** [Number.prototype.toString] on an integer: its decimal digits, with
    a minus sign when negative. *)
Definition toString (n : Z) : string := NilZero.string_of_int (Z.to_int n).

(** [count] characters taken from [pad] over and over. *)
Fixpoint cycle (count : nat) (pad rest : string) : string :=
  match count with
  | O => ""
  | S count' =>
      match rest with
      | String c rest' => String c (cycle count' pad rest')
      | EmptyString =>
          match pad with
          | String c pad' => String c (cycle count' pad pad')
          | EmptyString => ""
          end
      end
  end.

(** [String.prototype.padStart(targetLength, padString)] *)
Definition padStart (targetLength : nat) (padString s : string) : string :=
  if (targetLength <=? String.length s)%nat then s
  else
    match padString with
    | EmptyString => s
    | _ => cycle (targetLength - String.length s) padString padString ++ s
    end.

(** The two elements the widgets write, and the module variable
    [lastDate] ([None] while it is undefined). *)
Record Page : Type := mkPage {
  clock_innerHTML : string;
  date_innerHTML : string;
  lastDate : option string
}.

(** The text [updateClock] builds. *)
Definition clockTime (tza now : Z) : string :=
  let hours := getHours tza now in
  let minutes := getMinutes tza now in
  let seconds := getSeconds tza now in
  padStart 2 "0" (toString hours)
  ++ ":" ++ padStart 2 "0" (toString minutes)
  ++ ":" ++ padStart 2 "0" (toString seconds).

(** One call of [updateClock]; it asks to be called again on the next
    animation frame. *)
Definition updateClock (tza now : Z) (p : Page) : Page :=
  mkPage (clockTime tza now) (date_innerHTML p) (lastDate p).

(** The text [updateDate] builds. *)
Definition dateText (tza now : Z) : string :=
  let year := getFullYear tza now in
  let month := getMonth tza now in
  let day := getDate tza now in
  toString year ++ "-" ++ padStart 2 "0" (toString (month + 1))
  ++ "-" ++ padStart 2 "0" (toString day).

Definition option_string_eqb (a : option string) (b : string) : bool :=
  match a with
  | Some a' => String.eqb a' b
  | None => false
  end.

(** One call of [updateDate]: the element is written only when the text
    differs from [lastDate]. *)
Definition updateDate (tza now : Z) (p : Page) : Page :=
  let date := dateText tza now in
  if negb (option_string_eqb (lastDate p) date)
  then mkPage (clock_innerHTML p) date (Some date)
  else p.

Definition updateDates (tza : Z) (nows : list Z) (p : Page) : Page :=
  fold_left (fun q now => updateDate tza now q) nows p.

(** Number of times the date element is written in a run of calls. *)
Fixpoint dateWrites (tza : Z) (nows : list Z) (p : Page) : nat :=
  match nows with
  | [] => O
  | now :: nows' =>
      ((if negb (option_string_eqb (lastDate p) (dateText tza now))
        then 1 else 0)
       + dateWrites tza nows' (updateDate tza now p))%nat
  end.

(** The number that a string of decimal digits stands for ([None] if
    another character occurs); used to state what the texts show. *)
Definition readDecimal (s : string) : option Z :=
  option_map Z.of_uint (NilEmpty.uint_of_string s).

(** The date element shows [lastDate], once there is one. *)
Definition date_shown (p : Page) : Prop :=
  match lastDate p with
  | Some d => date_innerHTML p = d
  | None => True
  end.

End Clock.

(** Two angles are congruent modulo a full turn. *)
Definition congruent_mod_2PI (a b : R) : Prop :=
  exists k : Z, a - b = IZR k * (2 * PI).

(* ================================================================== *)
(** * Facts about the calendar                                         *)
(* ================================================================== *)

Section Calendar.
Import JSDate.
Local Open Scope Z_scope.

Ltac div_step_tac :=
  intros;
  match goal with
  | |- context [?a =? ?b] => destruct (Z.eqb_spec a b)
  end;
  Z.div_mod_to_equations; lia.

Lemma div_step_4 (y : Z) :
  (y + 1 - 1969) / 4 = (y - 1969) / 4 + (if y mod 4 =? 0 then 1 else 0).
Proof. div_step_tac. Qed.

Lemma div_step_100 (y : Z) :
  (y + 1 - 1901) / 100
  = (y - 1901) / 100 + (if y mod 100 =? 0 then 1 else 0).
Proof. div_step_tac. Qed.

Lemma div_step_400 (y : Z) :
  (y + 1 - 1601) / 400
  = (y - 1601) / 400 + (if y mod 400 =? 0 then 1 else 0).
Proof. div_step_tac. Qed.

(** Consecutive years are [DaysInYear] days apart. *)
Lemma DayFromYear_succ (y : Z) :
  DayFromYear (y + 1) = DayFromYear y + DaysInYear y.
Proof.
  unfold DayFromYear, DaysInYear.
  rewrite div_step_4, div_step_100, div_step_400.
  destruct (Z.eqb_spec (y mod 4) 0), (Z.eqb_spec (y mod 100) 0),
    (Z.eqb_spec (y mod 400) 0); cbn [negb]; try lia;
  Z.div_mod_to_equations; lia.
Qed.

Lemma DaysInYear_range (y : Z) : DaysInYear y = 365 \/ DaysInYear y = 366.
Proof.
  unfold DaysInYear.
  repeat match goal with
         | |- context [?a =? ?b] => destruct (Z.eqb_spec a b); simpl
         end; auto.
Qed.

(** The executable [YearFromTime] meets its defining property. *)
Lemma YearFromTime_spec (t : Z) :
  DayFromYear (YearFromTime t) <= Day t < DayFromYear (YearFromTime t + 1).
Proof.
  unfold YearFromTime.
  set (d := Day t). set (y := 1970 + 400 * d / 146097).
  destruct (Z.ltb_spec d (DayFromYear y)) as [Hlt | Hge].
  - replace (y - 1 + 1) with y by lia. split; [| exact Hlt].
    subst y. unfold DayFromYear in *. Z.div_mod_to_equations. lia.
  - destruct (Z.leb_spec (DayFromYear (y + 1)) d) as [Hle | Hgt].
    + split; [exact Hle |].
      subst y. unfold DayFromYear in *. Z.div_mod_to_equations. lia.
    + lia.
Qed.

End Calendar.

(* ================================================================== *)
(** * Planet rotation                                                  *)
(* ================================================================== *)

Section PlanetRotation.
Import JSDate Astro.

Lemma UTCMinutes_next_day (now : Z) :
  UTCMinutes (now + 1440 * msPerMinute) = UTCMinutes now.
Proof.
  unfold UTCMinutes, getUTCHours, getUTCMinutes, HourFromTime, MinFromTime.
  unfold msPerHour, msPerMinute.
  replace ((now + 1440 * 60000) / 3600000)%Z with (now / 3600000 + 1 * 24)%Z
    by (replace (now + 1440 * 60000)%Z with (now + 24 * 3600000)%Z by lia;
        rewrite Z.div_add by lia; lia).
  replace ((now + 1440 * 60000) / 60000)%Z with (now / 60000 + 24 * 60)%Z
    by (rewrite Z.div_add by lia; lia).
  rewrite !Z.mod_add by lia.
  reflexivity.
Qed.

(** Reading of the UTC clock at a time value written as day, hour of the
    day, minute of the hour and the milliseconds within that minute. *)
Lemma UTCMinutes_at (day h m ms : Z) :
  (0 <= h < 24)%Z -> (0 <= m < 60)%Z ->
  UTCMinutes (day * msPerDay + h * msPerHour + m * msPerMinute
              + ms mod msPerMinute) = (h * 60 + m)%Z.
Proof.
  intros Hh Hm.
  unfold UTCMinutes, getUTCHours, getUTCMinutes, HourFromTime, MinFromTime.
  unfold msPerDay, msPerHour, msPerMinute.
  pose proof (Z.mod_pos_bound ms 60000 ltac:(lia)) as Hms.
  set (r := (ms mod 60000)%Z) in *.
  replace ((day * 86400000 + h * 3600000 + m * 60000 + r) / 3600000)%Z
    with (day * 24 + h)%Z
    by (apply Z.div_unique with (m * 60000 + r)%Z; lia).
  replace ((day * 86400000 + h * 3600000 + m * 60000 + r) / 60000)%Z
    with ((day * 24 + h) * 60 + m)%Z
    by (apply Z.div_unique with r; lia).
  rewrite (Z.add_comm (day * 24) h), Z.mod_add by lia.
  rewrite (Z.add_comm _ m), Z.mod_add by lia.
  rewrite !Z.mod_small by lia. reflexivity.
Qed.

Lemma congruent_refl (a : R) : congruent_mod_2PI a a.
Proof. exists 0%Z. lra. Qed.

(** C1. Whatever the clock reads, [updateEarthRotation] (and
    [updateRotationY] of the earliest variant) sets [earth.rotation.y] to
    [utcMinutes * (2 PI / 1440) + (- PI) - PI / 2], where [utcMinutes] is
    the UTC hour times 60 plus the UTC minute.  On any day, while the UTC
    clock reads 00:00 the angle is congruent to [- PI - PI / 2] modulo
    [2 PI], and while it reads 12:00 the angle is congruent to
    [- PI / 2]. *)
Theorem C1_updateEarthRotation_formula :
  forall (now : Z) (sc : Scene),
    earth_rotation_y (Ortho.updateEarthRotation now sc)
    = IZR (getUTCHours now * 60 + getUTCMinutes now) * (2 * PI / 1440)
      + (- PI) - PI / 2
    /\ Persp.updateEarthRotation now sc = Ortho.updateEarthRotation now sc
    /\ Legacy.updateRotationY now sc = Ortho.updateEarthRotation now sc
    /\ (forall day ms : Z,
          congruent_mod_2PI
            (earth_rotation_y
               (Ortho.updateEarthRotation
                  (day * msPerDay + 0 * msPerHour + 0 * msPerMinute
                   + ms mod msPerMinute) sc))
            (- PI - PI / 2))
    /\ (forall day ms : Z,
          congruent_mod_2PI
            (earth_rotation_y
               (Ortho.updateEarthRotation
                  (day * msPerDay + 12 * msPerHour + 0 * msPerMinute
                   + ms mod msPerMinute) sc))
            (- PI / 2)).
Proof.
  intros now sc. repeat split.
  - intros day ms.
    unfold Ortho.updateEarthRotation, updateEarthRotation.
    cbn [earth_rotation_y].
    rewrite UTCMinutes_at by lia.
    change (0 * 60 + 0)%Z with 0%Z.
    exists 0%Z. unfold RadPerMinute, GMTOffset. lra.
  - intros day ms.
    unfold Ortho.updateEarthRotation, updateEarthRotation.
    cbn [earth_rotation_y].
    rewrite UTCMinutes_at by lia.
    change (12 * 60 + 0)%Z with 720%Z.
    exists 0%Z. unfold RadPerMinute, GMTOffset. lra.
Qed.

(** C5. The planet rotation has period 1440 minutes: the angle set at a
    time value and the angle set 1440 minutes later are congruent modulo
    [2 PI] (they are in fact the same number, since only the UTC hour
    and minute are read). *)
Theorem C5_rotation_period_1440_minutes :
  forall (now : Z) (sc : Scene),
    congruent_mod_2PI
      (earth_rotation_y
         (Ortho.updateEarthRotation (now + 1440 * msPerMinute) sc))
      (earth_rotation_y (Ortho.updateEarthRotation now sc))
    /\ Ortho.updateEarthRotation (now + 1440 * msPerMinute) sc
       = Ortho.updateEarthRotation now sc.
Proof.
  intros now sc.
  assert (E : Ortho.updateEarthRotation (now + 1440 * msPerMinute) sc
              = Ortho.updateEarthRotation now sc).
  { unfold Ortho.updateEarthRotation, updateEarthRotation.
    rewrite UTCMinutes_next_day. reflexivity. }
  split; [rewrite E; apply congruent_refl | exact E].
Qed.

End PlanetRotation.

(* ================================================================== *)
(** * Day of the year                                                  *)
(* ================================================================== *)

Section DayOfYear.
Import JSDate Astro.
Local Open Scope Z_scope.

Lemma DayFromYear_lower (y : Z) :
  -271821 < y -> -99999750 <= DayFromYear y.
Proof.
  intros Hy. unfold DayFromYear. Z.div_mod_to_equations. lia.
Qed.

(** The local midnight that [new Date(year, 0, 0)] denotes: one day
    before the first of January. *)
Lemma newDate_day_zero (tza y : Z) :
  ~ (0 <= y <= 99) ->
  MakeDate (MakeDay (if (0 <=? y) && (y <=? 99) then 1900 + y else y) 0 0) 0
  = TimeFromYear y - msPerDay.
Proof.
  intros Hy.
  destruct (Z.leb_spec 0 y), (Z.leb_spec y 99); cbn [andb]; try lia;
    unfold MakeDate, MakeDay, TimeFromYear;
    change (0 / 12) with 0; change (0 mod 12) with 0; cbn [monthStart];
    rewrite !Z.add_0_r; unfold msPerDay; lia.
Qed.

Lemma TimeClip_valid (t : Z) : validTime t -> TimeClip t = Some t.
Proof.
  unfold validTime, TimeClip. intros H.
  destruct (Z.leb_spec (Z.abs t) maxTime); [reflexivity | lia].
Qed.

Lemma local_day_in_year (tza t : Z) :
  let y := getFullYear tza t in
  DayFromYear y <= Day (LocalTime tza t) < DayFromYear y + DaysInYear y.
Proof.
  intros y. rewrite <- DayFromYear_succ. apply YearFromTime_spec.
Qed.

Lemma startOfYear_day_zero (tza t : Z) :
  validTime t -> - msPerDay <= tza <= msPerDay ->
  ~ (0 <= getFullYear tza t <= 99) -> -271821 < getFullYear tza t ->
  startOfYear tza t
  = Some (UTC tza (TimeFromYear (getFullYear tza t) - msPerDay)).
Proof.
  intros Ht Htza H99 Hmin.
  unfold startOfYear, newDate.
  rewrite newDate_day_zero by assumption.
  apply TimeClip_valid.
  pose proof (local_day_in_year tza t) as Hd. cbv zeta in Hd.
  pose proof (DayFromYear_lower _ Hmin) as Hlo.
  unfold validTime, UTC, TimeFromYear, Day, LocalTime, msPerDay, maxTime in *.
  set (D := DayFromYear (getFullYear tza t)) in *.
  destruct Hd as [Hd _].
  assert (D * 86400000 <= t + tza)
    by (Z.div_mod_to_equations; lia).
  lia.
Qed.

Lemma day_count_from_day_zero (tza t : Z) :
  let y := getFullYear tza t in
  (t - UTC tza (TimeFromYear y - msPerDay)) / 86400000
  = Day (LocalTime tza t) - DayFromYear y + 1.
Proof.
  intros y. unfold UTC, TimeFromYear, Day, LocalTime, msPerDay.
  replace (t - (86400000 * DayFromYear y - 86400000 - tza))
    with (t + tza + (- DayFromYear y + 1) * 86400000) by lia.
  rewrite Z.div_add by lia. lia.
Qed.

(** C2, as the code has it.  [startOfYear] is local midnight of day 0 of
    January, that is December 31 of the year before, one day earlier than
    the midnight of January 1 the specification names; [dayOfYear] is the
    floor of the milliseconds since then over 86400000, one more than the
    count from January 1.  For a valid date whose local year is neither
    one of 0..99 (which [new Date(year, 0, 0)] reads as 1900..1999) nor
    the first year of the valid range (where day 0 of January is not a
    valid date), in a zone of fixed offset of at most a day, [dayOfYear]
    lies in 1..366. *)
Theorem C2_dayOfYear_counts_from_day_zero_of_January :
  forall tza t : Z,
    validTime t ->
    - msPerDay <= tza <= msPerDay ->
    ~ (0 <= getFullYear tza t <= 99) ->
    -271821 < getFullYear tza t ->
    startOfYear tza t
    = Some (UTC tza (TimeFromYear (getFullYear tza t) - msPerDay))
    /\ (exists d : Z,
          dayOfYear tza t = Some d
          /\ d = (t - UTC tza (TimeFromYear (getFullYear tza t) - msPerDay))
                 / 86400000
          /\ d = spec_dayOfYear tza t + 1
          /\ 1 <= d <= 366).
Proof.
  intros tza t Ht Htza H99 Hmin.
  pose proof (startOfYear_day_zero tza t Ht Htza H99 Hmin) as Hs.
  split; [exact Hs |].
  eexists. unfold dayOfYear. rewrite Hs.
  change (1000 * 60 * 60 * 24) with 86400000.
  split; [reflexivity |]. split; [reflexivity |].
  pose proof (day_count_from_day_zero tza t) as Hc. cbv zeta in Hc.
  pose proof (local_day_in_year tza t) as Hd. cbv zeta in Hd.
  pose proof (DaysInYear_range (getFullYear tza t)) as Hr.
  rewrite Hc. split; [| lia].
  unfold spec_dayOfYear, spec_startOfYear, UTC, TimeFromYear, Day, LocalTime,
    msPerDay.
  replace (t - (86400000 * DayFromYear (getFullYear tza t) - tza))
    with (t + tza + (- DayFromYear (getFullYear tza t)) * 86400000) by lia.
  rewrite Z.div_add by lia. unfold msPerDay. lia.
Qed.

(** The theorem above at noon UTC of June 21, 2024, in the UTC zone. *)
Lemma C2_dayOfYear_witness :
  exists d : Z, dayOfYear 0 1718971200000 = Some d /\ d = 173.
Proof.
  destruct (C2_dayOfYear_counts_from_day_zero_of_January 0 1718971200000)
    as [_ [d [Hd [Hv _]]]].
  - unfold validTime, maxTime. lia.
  - unfold msPerDay. lia.
  - vm_compute. intros [_ H]. apply H. reflexivity.
  - vm_compute. reflexivity.
  - exists d. split; [exact Hd |]. rewrite Hv. vm_compute. reflexivity.
Defined.

(** C2 as the specification words it fails on the code: at midnight UTC
    of January 1, 2024 (time value 1704067200000), in the UTC zone,
    [startOfYear] is December 31, 2023 and not January 1, 2024; the code
    obtains day 1, while the count from January 1 is 0, outside 1..366. *)
Lemma C2_startOfYear_is_not_January_1 :
  getFullYear 0 1704067200000 = 2024
  /\ startOfYear 0 1704067200000 = Some 1703980800000
  /\ spec_startOfYear 0 1704067200000 = 1704067200000
  /\ dayOfYear 0 1704067200000 = Some 1
  /\ spec_dayOfYear 0 1704067200000 = 0
  /\ dayOfYear 0 1704067200000 <> Some (spec_dayOfYear 0 1704067200000)
  /\ ~ (1 <= spec_dayOfYear 0 1704067200000 <= 366).
Proof.
  repeat split; try (vm_compute; reflexivity).
  - vm_compute. discriminate.
  - vm_compute. intros [H _]. apply H. reflexivity.
Qed.

End DayOfYear.

(* ================================================================== *)
(** * The 173rd day of a year                                          *)
(* ================================================================== *)

Section Day173.
Import JSDate Astro.
Local Open Scope Z_scope.

Lemma DayFromYear_le (a b : Z) : a <= b -> DayFromYear a <= DayFromYear b.
Proof.
  intros H. unfold DayFromYear.
  destruct (Z.eq_dec a b) as [-> | Hne]; [lia |].
  Z.div_mod_to_equations. lia.
Qed.

(** The year of a time value is the one whose days contain its day. *)
Lemma YearFromTime_unique (t y : Z) :
  DayFromYear y <= Day t < DayFromYear (y + 1) -> YearFromTime t = y.
Proof.
  intros [Hlo Hhi].
  pose proof (YearFromTime_spec t) as [Slo Shi].
  destruct (Z.lt_trichotomy (YearFromTime t) y) as [Hlt | [Heq | Hgt]].
  - pose proof (DayFromYear_le (YearFromTime t + 1) y ltac:(lia)). lia.
  - exact Heq.
  - pose proof (DayFromYear_le (y + 1) (YearFromTime t) ltac:(lia)). lia.
Qed.

Lemma DayFromYear_upper (y : Z) : y < 275760 -> DayFromYear y <= 99999500.
Proof.
  intros Hy. unfold DayFromYear. Z.div_mod_to_equations. lia.
Qed.

(** Local midnight at the start of the 173rd day of year [y]. *)
Lemma getFullYear_day_173 (tza y : Z) :
  getFullYear tza (UTC tza (TimeFromYear y + 172 * msPerDay)) = y.
Proof.
  unfold getFullYear, LocalTime, UTC.
  replace (TimeFromYear y + 172 * msPerDay - tza + tza)
    with (TimeFromYear y + 172 * msPerDay) by lia.
  apply YearFromTime_unique.
  rewrite DayFromYear_succ.
  pose proof (DaysInYear_range y) as Hr.
  unfold Day, TimeFromYear, msPerDay.
  replace (86400000 * DayFromYear y + 172 * 86400000)
    with ((DayFromYear y + 172) * 86400000) by lia.
  rewrite Z.div_mul by lia. lia.
Qed.

Lemma dayOfYear_day_173 (tza y : Z) :
  - msPerDay <= tza <= msPerDay ->
  ~ (0 <= y <= 99) ->
  -271821 < y < 275760 ->
  dayOfYear tza (UTC tza (TimeFromYear y + 172 * msPerDay)) = Some 173.
Proof.
  intros Htza H99 Hy.
  set (t := UTC tza (TimeFromYear y + 172 * msPerDay)).
  pose proof (getFullYear_day_173 tza y) as Hyear. fold t in Hyear.
  assert (Hvalid : validTime t).
  { pose proof (DayFromYear_lower y ltac:(lia)) as Hlo.
    pose proof (DayFromYear_upper y ltac:(lia)) as Hhi.
    unfold t, validTime, UTC, TimeFromYear, msPerDay, maxTime in *. lia. }
  pose proof (startOfYear_day_zero tza t Hvalid Htza
                ltac:(rewrite Hyear; exact H99)
                ltac:(rewrite Hyear; lia)) as Hs.
  unfold dayOfYear. rewrite Hs.
  change (1000 * 60 * 60 * 24) with 86400000. f_equal.
  pose proof (day_count_from_day_zero tza t) as Hc. cbv zeta in Hc.
  rewrite Hc, Hyear.
  unfold t, Day, LocalTime, UTC, TimeFromYear, msPerDay.
  replace (86400000 * DayFromYear y + 172 * 86400000 - tza + tza)
    with ((DayFromYear y + 172) * 86400000) by lia.
  rewrite Z.div_mul by lia. lia.
Qed.

Lemma dayOfYear_2024_06_21 : dayOfYear 0 1718971200000 = Some 173.
Proof. vm_compute. reflexivity. Qed.

Lemma dayOfYear_2024_07_01 : dayOfYear 0 1719835200000 = Some (173 + 10).
Proof. vm_compute. reflexivity. Qed.

Lemma dayOfYear_2024_06_11 : dayOfYear 0 1718107200000 = Some (173 - 10).
Proof. vm_compute. reflexivity. Qed.

End Day173.

(* ================================================================== *)
(** * Sun elevation                                                    *)
(* ================================================================== *)

Section SunElevation.
Import JSDate Astro.

Lemma sunlightAngleSINE_bound (d : Z) :
  - 0.398 <= sunlightAngleSINE d <= 0.398.
Proof.
  unfold sunlightAngleSINE.
  pose proof (COS_bound (2 * PI * (IZR d - 173) / 365.242)). lra.
Qed.

Lemma sunlightAngleSINE_173 : sunlightAngleSINE 173 = 0.398.
Proof.
  unfold sunlightAngleSINE.
  replace (2 * PI * (173 - 173) / 365.242) with 0 by lra.
  rewrite cos_0. lra.
Qed.

(** [asin] does not decrease on [-1, 1]. *)
Lemma asin_monotone (x y : R) :
  -1 <= x -> x <= y -> y <= 1 -> asin x <= asin y.
Proof.
  intros Hx Hxy Hy.
  destruct (Rle_or_lt (asin x) (asin y)) as [H | H]; [exact H | exfalso].
  pose proof (asin_bound x) as Bx. pose proof (asin_bound y) as By.
  assert (Hs : sin (asin y) < sin (asin x))
    by (apply sin_increasing_1; lra).
  rewrite !sin_asin in Hs by lra. lra.
Qed.

Lemma Ortho_updateSunlightAngle_eq :
  Ortho.updateSunlightAngle = updateSunlightAngle_asin.
Proof. reflexivity. Qed.

Lemma Persp_updateSunlightAngle_eq :
  Persp.updateSunlightAngle = updateSunlightAngle_tangent.
Proof. reflexivity. Qed.

Lemma Legacy_updateRotationX_eq :
  Legacy.updateRotationX = updateSunlightAngle_tangent.
Proof. reflexivity. Qed.

Lemma tan_sunlightAngleOfDay (d : Z) :
  tan (sunlightAngleOfDay d) = sunlightAngleTANGENT d.
Proof.
  unfold sunlightAngleOfDay, sunlightAngleTANGENT.
  pose proof (sunlightAngleSINE_bound d).
  rewrite tan_asin by lra. unfold Rsqr. reflexivity.
Qed.

Lemma updateSunlightAngle_asin_tangent (tza now : Z) (sc : Scene) :
  updateSunlightAngle_asin tza now sc = updateSunlightAngle_tangent tza now sc.
Proof.
  unfold updateSunlightAngle_asin, updateSunlightAngle_tangent,
    getSunlightAngle.
  destruct (Astro.dayOfYear tza now) as [n |]; cbn [option_map];
    [rewrite tan_sunlightAngleOfDay |]; reflexivity.
Qed.

(** C4. For every day of the year, the height at which the orthographic
    variant places the light, [SunlightDistance * tan (asin sinDecl)],
    is the height the two other variants compute without the inverse
    sine, [SunlightDistance * (sinDecl / sqrt (1 - sinDecl * sinDecl))],
    where [sinDecl = 0.398 * cos (2 PI (dayOfYear - 173) / 365.242)]; so
    the update functions of the three variants place the light alike.
    The equality is over the real numbers. *)
Theorem C4_tan_asin_agrees_with_tangent_identity :
  forall d : Z,
    lightY_asin d = lightY_tangent d
    /\ lightY_asin d
       = SunlightDistance
         * tan (asin (0.398 * cos (2 * PI * (IZR d - 173) / 365.242)))
    /\ lightY_tangent d
       = SunlightDistance
         * (0.398 * cos (2 * PI * (IZR d - 173) / 365.242)
            / sqrt (1 - 0.398 * cos (2 * PI * (IZR d - 173) / 365.242)
                        * (0.398 * cos (2 * PI * (IZR d - 173) / 365.242))))
    /\ (forall (tza now : Z) (sc : Scene),
          Ortho.updateSunlightAngle tza now sc
          = Persp.updateSunlightAngle tza now sc
          /\ Ortho.updateSunlightAngle tza now sc
             = Legacy.updateRotationX tza now sc).
Proof.
  intros d. split; [| split; [| split]].
  - unfold lightY_asin, lightY_tangent.
    rewrite tan_sunlightAngleOfDay. reflexivity.
  - unfold lightY_asin, sunlightAngleOfDay, sunlightAngleSINE. reflexivity.
  - unfold lightY_tangent, sunlightAngleTANGENT, sunlightAngleSINE.
    reflexivity.
  - intros tza now sc.
    rewrite Ortho_updateSunlightAngle_eq, Persp_updateSunlightAngle_eq,
      Legacy_updateRotationX_eq.
    split; apply updateSunlightAngle_asin_tangent.
Qed.

Lemma INR_fact_3 : INR (fact 3) = 6.
Proof. rewrite INR_IZR_INZ. reflexivity. Qed.

Lemma INR_fact_5 : INR (fact 5) = 120.
Proof. rewrite INR_IZR_INZ. reflexivity. Qed.

Lemma INR_fact_7 : INR (fact 7) = 5040.
Proof. rewrite INR_IZR_INZ. reflexivity. Qed.

(** The partial sums of the sine series that bound [sin] from above and
    from below, as polynomials. *)
Lemma sin_approx_2 (a : R) : sin_approx a 2 = a - a ^ 3 / 6 + a ^ 5 / 120.
Proof.
  unfold sin_approx, sin_term.
  cbn [sum_f_R0 Nat.mul Nat.add].
  rewrite INR_fact_3, INR_fact_5. change (INR (fact 1)) with 1.
  simpl pow. field.
Qed.

Lemma sin_approx_3 (a : R) :
  sin_approx a 3 = a - a ^ 3 / 6 + a ^ 5 / 120 - a ^ 7 / 5040.
Proof.
  unfold sin_approx, sin_term.
  cbn [sum_f_R0 Nat.mul Nat.add].
  rewrite INR_fact_3, INR_fact_5, INR_fact_7. change (INR (fact 1)) with 1.
  simpl pow. field.
Qed.

(** The sines of the two decimal numbers that enclose [asin 0.398]. *)
Lemma sin_enclosure : sin 0.4093 < 0.398 < sin 0.4094.
Proof.
  pose proof PI2_1 as HPI.
  split.
  - apply Rle_lt_trans with (sin_approx 0.4093 2).
    + apply (sin_bound 0.4093 0); lra.
    + rewrite sin_approx_2. lra.
  - apply Rlt_le_trans with (sin_approx 0.4094 3).
    + rewrite sin_approx_3. lra.
    + apply (sin_bound 0.4094 1); lra.
Qed.

Lemma asin_0398_enclosure : 0.4093 < asin 0.398 < 0.4094.
Proof.
  pose proof PI2_1 as HPI. pose proof sin_enclosure as [Hl Hu].
  pose proof (asin_bound 0.398) as Hb.
  assert (Hs : sin (asin 0.398) = 0.398) by (apply sin_asin; lra).
  split.
  - destruct (Rlt_or_le 0.4093 (asin 0.398)) as [H | H]; [exact H | exfalso].
    destruct H as [H | H].
    + assert (sin (asin 0.398) < sin 0.4093)
        by (apply sin_increasing_1; lra).
      lra.
    + rewrite H in Hs. lra.
  - destruct (Rlt_or_le (asin 0.398) 0.4094) as [H | H]; [exact H | exfalso].
    destruct H as [H | H].
    + assert (sin 0.4094 < sin (asin 0.398))
        by (apply sin_increasing_1; lra).
      lra.
    + rewrite <- H in Hs. lra.
Qed.

Lemma sunlightAngleOfDay_max (d : Z) : sunlightAngleOfDay d <= asin 0.398.
Proof.
  unfold sunlightAngleOfDay.
  pose proof (sunlightAngleSINE_bound d).
  apply asin_monotone; lra.
Qed.

Lemma sunlightAngleOfDay_173 : sunlightAngleOfDay 173 = asin 0.398.
Proof.
  unfold sunlightAngleOfDay. rewrite sunlightAngleSINE_173. reflexivity.
Qed.

Lemma sunlightAngleOfDay_symmetric (k : Z) :
  sunlightAngleOfDay (173 + k) = sunlightAngleOfDay (173 - k).
Proof.
  unfold sunlightAngleOfDay, sunlightAngleSINE.
  rewrite plus_IZR, minus_IZR.
  replace (2 * PI * (173 + IZR k - 173) / 365.242)
    with (- (2 * PI * (173 - IZR k - 173) / 365.242)) by lra.
  rewrite cos_neg. reflexivity.
Qed.

(** What [getSunlightAngle] returns on a date, from its day number. *)
Lemma getSunlightAngle_of_day (tza time d : Z) :
  dayOfYear tza time = Some d ->
  getSunlightAngle tza time = Some (sunlightAngleOfDay d).
Proof.
  unfold getSunlightAngle. generalize (dayOfYear tza time). intros o ->.
  reflexivity.
Qed.

Lemma getSunlightAngle_formula (tza time : Z) :
  getSunlightAngle tza time
  = option_map
      (fun d : Z => asin (0.398 * cos (2 * PI * (IZR d - 173) / 365.242)))
      (dayOfYear tza time).
Proof.
  unfold getSunlightAngle. generalize (dayOfYear tza time). intros o.
  destruct o as [d |]; reflexivity.
Qed.

(** C9. [getSunlightAngle] returns the arcsine of
    [0.398 * cos (2 PI (dayOfYear - 173) / 365.242)] for the day number
    of its date.  Its largest value is [asin 0.398], a number between
    0.4093 and 0.4094 (so within 0.0005 of 0.4089): no date gives more,
    every date whose day number is 173 gives exactly that, and every
    year has such a date (local midnight at the start of its 173rd day;
    years 0..99 and the two ends of the range of valid dates left
    aside).  Two dates whose day numbers are [k] above and [k] below 173
    give the same angle. *)
Theorem C9_sun_elevation_maximal_at_day_173 :
  forall tza y t0 t1 t2 k : Z,
    (- JSDate.msPerDay <= tza <= JSDate.msPerDay)%Z ->
    ~ (0 <= y <= 99)%Z ->
    (-271821 < y < 275760)%Z ->
    dayOfYear tza t0 = Some 173%Z ->
    dayOfYear tza t1 = Some (173 + k)%Z ->
    dayOfYear tza t2 = Some (173 - k)%Z ->
    (forall d : Z, sunlightAngleOfDay d <= sunlightAngleOfDay 173)
    /\ sunlightAngleOfDay 173 = asin 0.398
    /\ 0.4093 < asin 0.398 < 0.4094
    /\ Rabs (sunlightAngleOfDay 173 - 0.4089) < 0.0005
    /\ (forall j : Z,
          sunlightAngleOfDay (173 + j) = sunlightAngleOfDay (173 - j))
    /\ (forall tza' time : Z,
          match getSunlightAngle tza' time with
          | Some a => a <= asin 0.398
          | None => True
          end)
    /\ (forall tza' time : Z,
          getSunlightAngle tza' time
          = option_map
              (fun d : Z =>
                 asin (0.398 * cos (2 * PI * (IZR d - 173) / 365.242)))
              (dayOfYear tza' time))
    /\ getSunlightAngle tza
         (JSDate.UTC tza
            (JSDate.TimeFromYear y + 172 * JSDate.msPerDay)%Z)
       = Some (asin 0.398)
    /\ getSunlightAngle tza t0 = Some (asin 0.398)
    /\ (exists a : R,
          getSunlightAngle tza t1 = Some a
          /\ getSunlightAngle tza t2 = Some a
          /\ a <= asin 0.398).
Proof.
  intros tza y t0 t1 t2 k Htza H99 Hy H0 H1 H2.
  pose proof asin_0398_enclosure as Henc.
  split; [| split; [| split; [| split; [| split; [| split;
    [| split; [| split; [| split]]]]]]]].
  - intros d. rewrite sunlightAngleOfDay_173. apply sunlightAngleOfDay_max.
  - exact sunlightAngleOfDay_173.
  - exact Henc.
  - rewrite sunlightAngleOfDay_173. apply Rabs_def1; lra.
  - exact sunlightAngleOfDay_symmetric.
  - intros tza' time. unfold getSunlightAngle.
    generalize (dayOfYear tza' time). intros o.
    destruct o as [d |]; cbn [option_map];
      [apply sunlightAngleOfDay_max | exact I].
  - exact getSunlightAngle_formula.
  - rewrite (getSunlightAngle_of_day _ _ 173%Z)
      by (apply dayOfYear_day_173; assumption).
    rewrite sunlightAngleOfDay_173. reflexivity.
  - rewrite (getSunlightAngle_of_day _ _ _ H0).
    rewrite sunlightAngleOfDay_173. reflexivity.
  - exists (sunlightAngleOfDay (173 + k)).
    rewrite (getSunlightAngle_of_day _ _ _ H1).
    rewrite (getSunlightAngle_of_day _ _ _ H2).
    rewrite <- sunlightAngleOfDay_symmetric.
    split; [reflexivity |]. split; [reflexivity |].
    apply sunlightAngleOfDay_max.
Qed.

(** The theorem above in the UTC zone for the year 2024, with noon of
    June 21 as the date of day number 173 and noon of July 1 and of
    June 11 as the dates ten days after and before. *)
Lemma C9_sun_elevation_witness :
  getSunlightAngle 0 1718971200000 = Some (asin 0.398)
  /\ (exists a : R,
        getSunlightAngle 0 1719835200000 = Some a
        /\ getSunlightAngle 0 1718107200000 = Some a
        /\ a <= asin 0.398).
Proof.
  destruct (C9_sun_elevation_maximal_at_day_173 0 2024
              1718971200000 1719835200000 1718107200000 10)
    as [_ [_ [_ [_ [_ [_ [_ [_ [H0 H12]]]]]]]]].
  - unfold JSDate.msPerDay. lia.
  - lia.
  - lia.
  - exact dayOfYear_2024_06_21.
  - exact dayOfYear_2024_07_01.
  - exact dayOfYear_2024_06_11.
  - split; [exact H0 | exact H12].
Defined.

End SunElevation.

(* ================================================================== *)
(** * Orbit camera                                                     *)
(* ================================================================== *)

Section OrbitCamera.

(** ** Clamping with [Math.max (Math.min x hi) lo] *)

Lemma clamp_range (lo hi x : R) :
  lo <= hi -> lo <= Rmax (Rmin x hi) lo <= hi.
Proof.
  intros H. unfold Rmax, Rmin.
  destruct (Rle_dec x hi); destruct (Rle_dec _ lo); lra.
Qed.

Lemma clamp_inside (lo hi x : R) :
  lo <= x <= hi -> Rmax (Rmin x hi) lo = x.
Proof.
  intros H. unfold Rmax, Rmin.
  destruct (Rle_dec x hi); destruct (Rle_dec _ lo); lra.
Qed.

Lemma clamp_above (lo hi x : R) :
  lo <= hi -> hi <= x -> Rmax (Rmin x hi) lo = hi.
Proof.
  intros H1 H2. unfold Rmax, Rmin.
  destruct (Rle_dec x hi); destruct (Rle_dec _ lo); lra.
Qed.

Lemma PI_gt_2 : 2 < PI.
Proof. pose proof PI2_1. lra. Qed.

(** ** The polar angle *)

Lemma Ortho_phi_after_move (dx dy : R) (s : Ortho.State) :
  0.001 <= Ortho.cameraPhi (Ortho.moveSphericCamera dx dy s) <= PI.
Proof.
  unfold Ortho.moveSphericCamera, Ortho.with_orbit. cbn [Ortho.cameraPhi].
  apply clamp_range. pose proof PI_gt_2. lra.
Qed.

Lemma Ortho_phi_after_drags (ds : list (R * R)) (s : Ortho.State) :
  0.001 <= Ortho.cameraPhi s <= PI ->
  0.001 <= Ortho.cameraPhi (Ortho.drags ds s) <= PI.
Proof.
  revert s. induction ds as [| d ds IH]; intros s Hs; [exact Hs |].
  unfold Ortho.drags in *. cbn [fold_left].
  apply IH, Ortho_phi_after_move.
Qed.

Lemma Persp_phi_after_move (dx dy : R) (s : Persp.State) :
  0.001 <= Persp.cameraPhi (Persp.moveSphericCamera dx dy s) <= PI.
Proof.
  unfold Persp.moveSphericCamera. cbn [Persp.cameraPhi].
  apply clamp_range. pose proof PI_gt_2. lra.
Qed.

Lemma Persp_phi_after_drags (ds : list (R * R)) (s : Persp.State) :
  0.001 <= Persp.cameraPhi s <= PI ->
  0.001 <= Persp.cameraPhi (Persp.drags ds s) <= PI.
Proof.
  revert s. induction ds as [| d ds IH]; intros s Hs; [exact Hs |].
  unfold Persp.drags in *. cbn [fold_left].
  apply IH, Persp_phi_after_move.
Qed.

Lemma Legacy_phi_dispatch (ev : Legacy.MouseEvent) (s : Legacy.State) :
  Legacy.phi_ok s -> Legacy.phi_ok (Legacy.dispatch s ev).
Proof.
  intros Hs. destruct ev as [e | e |]; cbn [Legacy.dispatch].
  - exact Hs.
  - unfold Legacy.handleMouseMove.
    destruct (isDragging (Legacy.drag s)); cbn [negb]; [| exact Hs].
    unfold Legacy.phi_ok.
    cbn [Legacy.sphericalCameraAngle Legacy.phi].
    apply clamp_range. pose proof PI_gt_2. lra.
  - exact Hs.
Qed.

Lemma Legacy_phi_run (evs : list Legacy.MouseEvent) (s : Legacy.State) :
  Legacy.phi_ok s -> Legacy.phi_ok (Legacy.run evs s).
Proof.
  revert s. induction evs as [| ev evs IH]; intros s Hs; [exact Hs |].
  unfold Legacy.run in *. cbn [fold_left].
  apply IH, Legacy_phi_dispatch, Hs.
Qed.

(** C3, as the code has it.  After one or more drags, from any state,
    the polar angle of both variants of [src/main.js] lies in the closed
    interval from 0.001 to [PI] that the clamp is written with; in the
    earliest variant every run of mouse events keeps it in the closed
    interval from 0.1 to [PI - 0.1] once it is there.  So it is never 0,
    and in the earliest variant never [PI]. *)
Theorem C3_phi_stays_in_closed_clamp_interval :
  forall (d : R * R) (ds : list (R * R))
         (so : Ortho.State) (sp : Persp.State)
         (evs : list Legacy.MouseEvent) (sl : Legacy.State),
    0.1 <= Legacy.phi (Legacy.sphericalCameraAngle sl) <= PI - 0.1 ->
    (0.001 <= Ortho.cameraPhi (Ortho.drags (d :: ds) so) <= PI
     /\ Ortho.cameraPhi (Ortho.drags (d :: ds) so) <> 0)
    /\ (0.001 <= Persp.cameraPhi (Persp.drags (d :: ds) sp) <= PI
        /\ Persp.cameraPhi (Persp.drags (d :: ds) sp) <> 0)
    /\ (0.1 <= Legacy.phi (Legacy.sphericalCameraAngle (Legacy.run evs sl))
        <= PI - 0.1
        /\ Legacy.phi (Legacy.sphericalCameraAngle (Legacy.run evs sl)) <> 0
        /\ Legacy.phi (Legacy.sphericalCameraAngle (Legacy.run evs sl)) <> PI).
Proof.
  intros d ds so sp evs sl Hl.
  assert (Ho : 0.001 <= Ortho.cameraPhi (Ortho.drags (d :: ds) so) <= PI).
  { unfold Ortho.drags. cbn [fold_left].
    apply Ortho_phi_after_drags, Ortho_phi_after_move. }
  assert (Hp : 0.001 <= Persp.cameraPhi (Persp.drags (d :: ds) sp) <= PI).
  { unfold Persp.drags. cbn [fold_left].
    apply Persp_phi_after_drags, Persp_phi_after_move. }
  pose proof (Legacy_phi_run evs sl Hl) as Hr. unfold Legacy.phi_ok in Hr.
  repeat split; try lra.
Qed.

(** The theorem above for a drag of 1000 pixels downwards, from the
    initial state of each variant. *)
Lemma C3_phi_witness :
  0.1 <= Legacy.phi (Legacy.sphericalCameraAngle
           (Legacy.run [Legacy.MouseDown (mkPointerEvent 0 0);
                        Legacy.MouseMove (mkPointerEvent 0 1000)]
              Legacy.initial))
  <= PI - 0.1.
Proof.
  apply (C3_phi_stays_in_closed_clamp_interval (0, 1000) []
           (Ortho.initial 1) Persp.initial).
  cbn [Legacy.initial Legacy.sphericalCameraAngle Legacy.phi].
  pose proof PI_gt_2. lra.
Defined.

(** C3 as the specification words it fails on the code: dragging 400
    pixels upwards from the initial state brings the polar angle of the
    orthographic variant to [PI] exactly, the upper bound of its clamp. *)
Lemma C3_phi_reaches_PI :
  Ortho.cameraPhi (Ortho.drags [(0, -400)] (Ortho.initial 1)) = PI.
Proof.
  unfold Ortho.drags. cbn [fold_left fst snd].
  unfold Ortho.moveSphericCamera, Ortho.with_orbit, Ortho.initial.
  cbn [Ortho.cameraPhi].
  apply clamp_above; pose proof PI_gt_2; pose proof PI_4; lra.
Qed.

(** The lower bound of the clamp is reached as well: dragging 400
    pixels downwards from the initial state brings the polar angle to
    0.001 exactly. *)
Lemma phi_reaches_lower_bound :
  Ortho.cameraPhi (Ortho.drags [(0, 400)] (Ortho.initial 1)) = 0.001.
Proof.
  unfold Ortho.drags. cbn [fold_left fst snd].
  unfold Ortho.moveSphericCamera, Ortho.with_orbit, Ortho.initial.
  cbn [Ortho.cameraPhi].
  pose proof PI_gt_2. pose proof PI_4.
  unfold Rmax, Rmin.
  destruct (Rle_dec (PI / 2 - 400 * 0.01) PI); destruct (Rle_dec _ 0.001); lra.
Qed.

(** ** Position on the orbit sphere *)

Lemma sphere_point_distance (d phi theta : R) :
  0 <= d ->
  distanceToOrigin
    (mkVec3 (d * sin phi * cos theta) (d * cos phi) (d * sin phi * sin theta))
  = d.
Proof.
  intros Hd. unfold distanceToOrigin. cbn [vx vy vz].
  replace (d * sin phi * cos theta * (d * sin phi * cos theta)
           + d * cos phi * (d * cos phi)
           + d * sin phi * sin theta * (d * sin phi * sin theta))
    with (d * d * ((sin phi)² * ((sin theta)² + (cos theta)²) + (cos phi)²))
    by (unfold Rsqr; ring).
  rewrite (sin2_cos2 theta), Rmult_1_r, (sin2_cos2 phi), Rmult_1_r.
  apply sqrt_square, Hd.
Qed.

Lemma axis_point_distance (d : R) :
  0 <= d -> distanceToOrigin (mkVec3 0 0 d) = d.
Proof.
  intros Hd. unfold distanceToOrigin. cbn [vx vy vz].
  replace (0 * 0 + 0 * 0 + d * d) with (d * d) by ring.
  apply sqrt_square, Hd.
Qed.

Lemma CameraDistance_pos : 0 <= CameraDistance.
Proof. unfold CameraDistance. lra. Qed.

Lemma DefaultCameraDistance_pos : 0 <= DefaultCameraDistance.
Proof. unfold DefaultCameraDistance. lra. Qed.

(** C10. After [moveSphericCamera] and after [resetCamera] the camera is
    at distance [cameraDistance] from the origin, the centre of the
    planet ([cameraDistance] is a variable of the orthographic variant,
    taken non-negative, and the constant 2.2 in the two other variants;
    in the earliest variant the camera is moved by [handleMouseMove]
    while a drag is going on). *)
Theorem C10_camera_stays_on_orbit_sphere :
  forall (dx dy : R) (so : Ortho.State) (sp : Persp.State)
         (e : PointerEvent) (sl : Legacy.State),
    0 <= Ortho.cameraDistance so ->
    isDragging (Legacy.drag sl) = true ->
    distanceToOrigin (position (Ortho.camera (Ortho.moveSphericCamera dx dy so)))
    = Ortho.cameraDistance (Ortho.moveSphericCamera dx dy so)
    /\ distanceToOrigin (position (Ortho.camera (Ortho.resetCamera so)))
       = Ortho.cameraDistance (Ortho.resetCamera so)
    /\ distanceToOrigin
         (position (Persp.camera (Persp.moveSphericCamera dx dy sp)))
       = CameraDistance
    /\ distanceToOrigin (position (Persp.camera (Persp.resetCamera sp)))
       = CameraDistance
    /\ distanceToOrigin
         (position (Legacy.camera (Legacy.handleMouseMove e sl)))
       = Legacy.cameraDist.
Proof.
  intros dx dy so sp e sl Hd Hdrag.
  split; [| split; [| split; [| split]]].
  - unfold Ortho.moveSphericCamera, Ortho.with_orbit, lookAt, position_set.
    cbn [Ortho.camera Ortho.cameraDistance position].
    apply sphere_point_distance, Hd.
  - unfold Ortho.resetCamera, Ortho.with_orbit, lookAt, position_set.
    cbn [Ortho.camera Ortho.cameraDistance position].
    apply axis_point_distance, DefaultCameraDistance_pos.
  - unfold Persp.moveSphericCamera, rotation_z_add, lookAt, position_set.
    cbn [Persp.camera position].
    apply sphere_point_distance, CameraDistance_pos.
  - unfold Persp.resetCamera, lookAt, position_set.
    cbn [Persp.camera position].
    apply axis_point_distance, CameraDistance_pos.
  - unfold Legacy.handleMouseMove. rewrite Hdrag. cbn [negb].
    unfold lookAt, position_set. cbn [Legacy.camera position].
    unfold Legacy.cameraDist.
    apply sphere_point_distance, CameraDistance_pos.
Qed.

(** The theorem above for a drag by (30, -20) from the initial states,
    the earliest variant having received a mouse-down first. *)
Lemma C10_orbit_sphere_witness :
  distanceToOrigin
    (position (Ortho.camera (Ortho.moveSphericCamera 30 (-20) (Ortho.initial 1))))
  = Ortho.cameraDistance (Ortho.moveSphericCamera 30 (-20) (Ortho.initial 1))
  /\ distanceToOrigin
       (position
          (Legacy.camera
             (Legacy.handleMouseMove (mkPointerEvent 30 (-20))
                (Legacy.handleMouseDown (mkPointerEvent 0 0) Legacy.initial))))
     = Legacy.cameraDist.
Proof.
  destruct (C10_camera_stays_on_orbit_sphere 30 (-20) (Ortho.initial 1)
              Persp.initial (mkPointerEvent 30 (-20))
              (Legacy.handleMouseDown (mkPointerEvent 0 0) Legacy.initial))
    as [H1 [_ [_ [_ H5]]]].
  - cbn [Ortho.initial Ortho.cameraDistance]. unfold DefaultCameraDistance. lra.
  - reflexivity.
  - split; [exact H1 | exact H5].
Defined.

(** ** Reset *)

Lemma phi_clamp_half_PI : Rmax (Rmin (PI / 2 - 0 * 0.01) PI) 0.001 = PI / 2.
Proof.
  replace (PI / 2 - 0 * 0.01) with (PI / 2) by lra.
  apply clamp_inside. pose proof PI_gt_2. lra.
Qed.

Lemma sphere_point_at_defaults (d : R) :
  mkVec3 (d * sin (PI / 2) * cos (PI / 2)) (d * cos (PI / 2))
         (d * sin (PI / 2) * sin (PI / 2))
  = mkVec3 0 0 d.
Proof. rewrite sin_PI2, cos_PI2. f_equal; ring. Qed.

(** C6. [resetCamera] restores [theta = phi = PI / 2], the default
    distance (and, in the perspective variant, zero tilt), and leaves the
    camera at [(0, 0, defaultDistance)] looking at the origin; converting
    the restored angles to a position, as a drag by (0, 0) does, gives
    that same camera. *)
Theorem C6_reset_then_cartesian :
  forall (so : Ortho.State) (sp : Persp.State),
    (Ortho.cameraTheta (Ortho.resetCamera so) = PI / 2
     /\ Ortho.cameraPhi (Ortho.resetCamera so) = PI / 2
     /\ Ortho.cameraDistance (Ortho.resetCamera so) = DefaultCameraDistance
     /\ Ortho.camera (Ortho.resetCamera so)
        = mkCamera (mkVec3 0 0 DefaultCameraDistance)
            (mkOrientation (mkVec3 0 0 DefaultCameraDistance) origin 0)
     /\ Ortho.moveSphericCamera 0 0 (Ortho.resetCamera so)
        = Ortho.resetCamera so)
    /\ (Persp.cameraTheta (Persp.resetCamera sp) = PI / 2
        /\ Persp.cameraPhi (Persp.resetCamera sp) = PI / 2
        /\ Persp.cameraTilt (Persp.resetCamera sp) = 0
        /\ Persp.camera (Persp.resetCamera sp)
           = mkCamera (mkVec3 0 0 CameraDistance)
               (mkOrientation (mkVec3 0 0 CameraDistance) origin 0)
        /\ Persp.moveSphericCamera 0 0 (Persp.resetCamera sp)
           = Persp.resetCamera sp).
Proof.
  intros so sp. split.
  - repeat split.
    unfold Ortho.moveSphericCamera, Ortho.resetCamera, Ortho.with_orbit,
      lookAt, position_set.
    cbn [Ortho.cameraTheta Ortho.cameraPhi Ortho.cameraDistance Ortho.camera
         Ortho.frustum Ortho.root_rotation_x Ortho.drag
         Ortho.noonMarker_visible Ortho.midnightMarker_visible
         Ortho.pole_visible position orientation].
    rewrite phi_clamp_half_PI.
    replace (PI / 2 + 0 * 0.01) with (PI / 2) by lra.
    rewrite sphere_point_at_defaults. reflexivity.
  - repeat split.
    unfold Persp.moveSphericCamera, Persp.resetCamera, rotation_z_add,
      lookAt, position_set.
    cbn [Persp.cameraTheta Persp.cameraPhi Persp.cameraTilt Persp.camera
         Persp.drag position orientation look_from look_to roll_z].
    rewrite Ropp_0, cos_0, sin_0.
    replace (0 * 0 + 0 * 1) with 0 by ring.
    replace (0 * 1 - 0 * 0) with 0 by ring.
    rewrite phi_clamp_half_PI.
    replace (PI / 2 + 0 * 0.01) with (PI / 2) by lra.
    rewrite sphere_point_at_defaults, Rplus_0_r. reflexivity.
Qed.

(** ** Tilt *)

Lemma Persp_handleKeyDown_f (s : Persp.State) :
  Persp.handleKeyDown "f" s
  = Persp.mkState (Persp.cameraTheta s) (Persp.cameraPhi s) 0
      (rotation_z_add (- Persp.cameraTilt s) (Persp.camera s)) (Persp.drag s).
Proof. reflexivity. Qed.

(** The tilt never leaves its clamp range: no key press takes it out. *)
Lemma Persp_tilt_keyDown (key : string) (s : Persp.State) :
  - PI / 2 <= Persp.cameraTilt s <= PI / 2 ->
  - PI / 2 <= Persp.cameraTilt (Persp.handleKeyDown key s) <= PI / 2.
Proof.
  intros Hs. pose proof PI_gt_2 as HPI. unfold Persp.handleKeyDown.
  repeat match goal with
         | |- context [if ?b then _ else _] => destruct b
         end;
    try exact Hs;
    unfold Persp.tiltCamera, Persp.moveSphericCamera, Persp.resetCamera;
    cbn [Persp.cameraTilt]; try exact Hs; try lra;
    apply clamp_range; lra.
Qed.

(** C7. [moveSphericCamera] of the perspective variant turns the raw
    delta by minus the tilt with a 2D rotation matrix and only then
    applies the sensitivity 0.01.  Hence, for a tilt [t] within its clamp
    range, a drag under tilt [t] gives the state obtained by taking the
    tilt off (key F), dragging at zero tilt by the delta turned by
    [- t], and tilting the camera by [t] again with [tiltCamera]. *)
Theorem C7_drag_under_tilt :
  forall (deltaX deltaY : R) (s : Persp.State),
    - PI / 2 <= Persp.cameraTilt s <= PI / 2 ->
    Persp.cameraTheta (Persp.moveSphericCamera deltaX deltaY s)
    = Persp.cameraTheta s
      + fst (Persp.rotate2D (- Persp.cameraTilt s) (deltaX, deltaY)) * 0.01
    /\ Persp.cameraPhi (Persp.moveSphericCamera deltaX deltaY s)
       = Rmax (Rmin (Persp.cameraPhi s
                     - snd (Persp.rotate2D (- Persp.cameraTilt s)
                              (deltaX, deltaY)) * 0.01) PI) 0.001
    /\ Persp.moveSphericCamera deltaX deltaY s
       = Persp.tiltCamera (Persp.cameraTilt s / 0.05)
           (Persp.moveSphericCamera
              (fst (Persp.rotate2D (- Persp.cameraTilt s) (deltaX, deltaY)))
              (snd (Persp.rotate2D (- Persp.cameraTilt s) (deltaX, deltaY)))
              (Persp.handleKeyDown "f" s)).
Proof.
  intros dx dy s Ht. split; [reflexivity | split; [reflexivity |]].
  rewrite Persp_handleKeyDown_f.
  unfold Persp.rotate2D. cbn [fst snd].
  set (t := Persp.cameraTilt s) in *.
  set (a := dx * cos (- t) - dy * sin (- t)).
  set (b := dx * sin (- t) + dy * cos (- t)).
  unfold Persp.moveSphericCamera at 2.
  cbn [Persp.cameraTheta Persp.cameraPhi Persp.cameraTilt Persp.camera
       Persp.drag].
  rewrite Ropp_0, cos_0, sin_0.
  replace (a * 1 - b * 0) with a by ring.
  replace (a * 0 + b * 1) with b by ring.
  unfold Persp.tiltCamera.
  cbn [Persp.cameraTheta Persp.cameraPhi Persp.cameraTilt Persp.camera
       Persp.drag].
  replace (0 + t / 0.05 * 0.05) with t by lra.
  rewrite (clamp_inside (- PI / 2) (PI / 2) t) by lra.
  unfold Persp.moveSphericCamera. fold t. fold a. fold b.
  unfold rotation_z_add, lookAt, position_set.
  cbn [position orientation look_from look_to roll_z].
  f_equal. f_equal. f_equal. ring.
Qed.

(** The theorem above for the initial state tilted once with key E. *)
Lemma C7_drag_under_tilt_witness :
  Persp.moveSphericCamera 10 0 (Persp.tiltCamera 1 Persp.initial)
  = Persp.tiltCamera
      (Persp.cameraTilt (Persp.tiltCamera 1 Persp.initial) / 0.05)
      (Persp.moveSphericCamera
         (fst (Persp.rotate2D
                 (- Persp.cameraTilt (Persp.tiltCamera 1 Persp.initial))
                 (10, 0)))
         (snd (Persp.rotate2D
                 (- Persp.cameraTilt (Persp.tiltCamera 1 Persp.initial))
                 (10, 0)))
         (Persp.handleKeyDown "f" (Persp.tiltCamera 1 Persp.initial))).
Proof.
  apply (C7_drag_under_tilt 10 0 (Persp.tiltCamera 1 Persp.initial)).
  unfold Persp.tiltCamera, Persp.initial. cbn [Persp.cameraTilt].
  pose proof (clamp_range (- PI / 2) (PI / 2) (0 + 1 * 0.05)) as H.
  pose proof PI_gt_2. lra.
Defined.

(** ** Zoom *)

Lemma Ortho_distance_keyDown (aspect : R) (key : string) (s : Ortho.State) :
  1 <= Ortho.cameraDistance s <= 10 ->
  1 <= Ortho.cameraDistance (Ortho.handleKeyDown aspect key s) <= 10.
Proof.
  intros Hs. unfold Ortho.handleKeyDown.
  repeat match goal with
         | |- context [if ?b then _ else _] => destruct b
         end;
    try exact Hs;
    unfold Ortho.tiltScene, Ortho.moveSphericCamera, Ortho.handleResize,
      Ortho.with_root_rotation_x, Ortho.with_orbit, Ortho.with_frustum,
      Ortho.with_cameraDistance, Ortho.with_orbit;
    cbn [Ortho.cameraDistance]; try exact Hs;
    unfold Rmin, Rmax;
    match goal with
    | |- context [Rle_dec ?a ?b] => destruct (Rle_dec a b)
    end; lra.
Qed.

(** C8. In the orthographic variant, if the camera distance starts
    within 1 and 10, then after any sequence of key presses, the zoom
    keys Z and C among them, it is still at least 1 and at most 10.
    Zooming out multiplies the distance by 1.1 and caps it at 10,
    zooming in multiplies it by 0.9 and keeps it at 1 or more. *)
Theorem C8_zoom_keeps_distance_within_bounds :
  forall (aspect : R) (keys : list string) (s : Ortho.State),
    1 <= Ortho.cameraDistance s <= 10 ->
    1 <= Ortho.cameraDistance (Ortho.keyDowns aspect keys s) <= 10
    /\ Ortho.cameraDistance (Ortho.handleKeyDown aspect "z" s)
       = Rmin (Ortho.cameraDistance s * 1.1) 10
    /\ Ortho.cameraDistance (Ortho.handleKeyDown aspect "c" s)
       = Rmax (Ortho.cameraDistance s * 0.9) 1.
Proof.
  intros aspect keys s Hs. split; [| split; reflexivity].
  revert s Hs. induction keys as [| k keys IH]; intros s Hs; [exact Hs |].
  unfold Ortho.keyDowns in *. cbn [fold_left].
  apply IH, Ortho_distance_keyDown, Hs.
Qed.

(** The theorem above for twenty-six zoom-out presses followed by one
    zoom-in press, from the initial state. *)
Lemma C8_zoom_witness :
  1 <= Ortho.cameraDistance
         (Ortho.keyDowns 1 (repeat "z" 26 ++ ["c"]) (Ortho.initial 1))
  <= 10.
Proof.
  apply (C8_zoom_keeps_distance_within_bounds 1 (repeat "z" 26 ++ ["c"])
           (Ortho.initial 1)).
  cbn [Ortho.initial Ortho.cameraDistance]. unfold DefaultCameraDistance. lra.
Defined.

End OrbitCamera.

(* ================================================================== *)
(** * Further properties of the astronomical model                     *)
(* ================================================================== *)

Section AstroMore.
Import JSDate Astro.

(** The UTC hour and minute together are the minute of the UTC day. *)
Lemma UTCMinutes_minute_of_day (now : Z) :
  UTCMinutes now = ((now / msPerMinute) mod 1440)%Z.
Proof.
  unfold UTCMinutes, getUTCHours, getUTCMinutes, HourFromTime, MinFromTime.
  unfold msPerHour, msPerMinute.
  replace (now / 3600000)%Z with (now / 60000 / 60)%Z
    by (rewrite Z.div_div by lia; reflexivity).
  generalize (now / 60000)%Z. intros q.
  Z.div_mod_to_equations. lia.
Qed.

Lemma UTCMinutes_range (now : Z) : (0 <= UTCMinutes now < 1440)%Z.
Proof.
  rewrite UTCMinutes_minute_of_day. apply Z.mod_pos_bound. lia.
Qed.

(** X1. The minute count that [updateEarthRotation] computes is the
    minute of the UTC day, from 0 to 1439, so the angle it sets is at
    least [- 3 PI / 2] and less than [PI / 2]: it does not grow with
    time. *)
Theorem X1_rotation_stays_within_one_turn :
  forall (now : Z) (sc : Scene),
    (0 <= UTCMinutes now < 1440)%Z
    /\ UTCMinutes now = ((now / 60000) mod 1440)%Z
    /\ - (3 * PI / 2)
       <= earth_rotation_y (Ortho.updateEarthRotation now sc)
       < PI / 2.
Proof.
  intros now sc.
  pose proof (UTCMinutes_minute_of_day now) as Hm. unfold msPerMinute in Hm.
  pose proof (UTCMinutes_range now) as Hr.
  split; [exact Hr |]. split; [exact Hm |].
  unfold Ortho.updateEarthRotation, updateEarthRotation.
  cbn [earth_rotation_y]. unfold RadPerMinute, GMTOffset.
  assert (H0 : 0 <= IZR (UTCMinutes now)) by (apply IZR_le; lia).
  assert (H1 : IZR (UTCMinutes now) <= 1439) by (apply IZR_le; lia).
  pose proof PI_RGT_0 as HPI.
  set (x := IZR (UTCMinutes now)) in *.
  split; nra.
Qed.

Lemma UTCMinutes_next_minute (now : Z) :
  UTCMinutes (now + msPerMinute) = ((UTCMinutes now + 1) mod 1440)%Z.
Proof.
  rewrite !UTCMinutes_minute_of_day. unfold msPerMinute.
  replace ((now + 60000) / 60000)%Z with (now / 60000 + 1)%Z
    by (replace (now + 60000)%Z with (now + 1 * 60000)%Z by lia;
        rewrite Z.div_add by lia; reflexivity).
  rewrite Z.add_mod_idemp_l by lia. reflexivity.
Qed.

(** X2. One minute later the planet has turned by [RadPerMinute], a
    1440th of a turn: the new angle is congruent modulo [2 PI] to the
    old one plus [2 PI / 1440] (it wraps back at UTC midnight). *)
Theorem X2_rotation_advances_one_step_per_minute :
  forall (now : Z) (sc : Scene),
    UTCMinutes (now + msPerMinute) = ((UTCMinutes now + 1) mod 1440)%Z
    /\ congruent_mod_2PI
         (earth_rotation_y (Ortho.updateEarthRotation (now + msPerMinute) sc))
         (earth_rotation_y (Ortho.updateEarthRotation now sc) + 2 * PI / 1440).
Proof.
  intros now sc.
  pose proof (UTCMinutes_next_minute now) as Hn.
  split; [exact Hn |].
  pose proof (UTCMinutes_range now) as Hr.
  unfold Ortho.updateEarthRotation, updateEarthRotation.
  cbn [earth_rotation_y]. rewrite Hn. unfold RadPerMinute, GMTOffset.
  destruct (Z.eq_dec (UTCMinutes now) 1439) as [E | E].
  - rewrite E. change ((1439 + 1) mod 1440)%Z with 0%Z.
    exists (-1)%Z. lra.
  - rewrite Z.mod_small by lia. rewrite plus_IZR.
    exists 0%Z. lra.
Qed.

End AstroMore.

Section DayOfYearMore.
Import JSDate Astro.
Local Open Scope Z_scope.

(** X3. Under the conditions of the day-of-year range, the day number is
    one more than the number of whole local days since January 1, so it
    is 1 on January 1 and never exceeds the number of days of the year:
    365 in a common year, 366 only in a leap year. *)
Theorem X3_dayOfYear_at_most_days_in_year :
  forall tza t : Z,
    validTime t ->
    - msPerDay <= tza <= msPerDay ->
    ~ (0 <= getFullYear tza t <= 99) ->
    -271821 < getFullYear tza t ->
    exists d : Z,
      dayOfYear tza t = Some d
      /\ d = DayWithinYear (LocalTime tza t) + 1
      /\ 1 <= d <= DaysInYear (getFullYear tza t).
Proof.
  intros tza t Ht Htza H99 Hmin.
  pose proof (startOfYear_day_zero tza t Ht Htza H99 Hmin) as Hs.
  eexists. unfold dayOfYear. rewrite Hs.
  change (1000 * 60 * 60 * 24) with 86400000.
  split; [reflexivity |].
  pose proof (day_count_from_day_zero tza t) as Hc. cbv zeta in Hc.
  pose proof (local_day_in_year tza t) as Hd. cbv zeta in Hd.
  rewrite Hc. unfold DayWithinYear. fold (getFullYear tza t).
  split; lia.
Qed.

(** The theorem above one millisecond before the end of 2023 (UTC). *)
Lemma X3_dayOfYear_witness :
  exists d : Z,
    dayOfYear 0 1704067199999 = Some d
    /\ d = DayWithinYear (LocalTime 0 1704067199999) + 1
    /\ 1 <= d <= DaysInYear (getFullYear 0 1704067199999).
Proof.
  apply (X3_dayOfYear_at_most_days_in_year 0 1704067199999).
  - unfold validTime, maxTime. lia.
  - unfold msPerDay. lia.
  - vm_compute. intros [_ H]. apply H. reflexivity.
  - vm_compute. reflexivity.
Defined.

(** X4. Twenty-four hours later, if the local year is still the same,
    the day number is one more (and not a number again if it was not
    one). *)
Theorem X4_dayOfYear_next_day :
  forall tza t : Z,
    getFullYear tza (t + msPerDay) = getFullYear tza t ->
    dayOfYear tza (t + msPerDay) = option_map Z.succ (dayOfYear tza t).
Proof.
  intros tza t Hy. unfold dayOfYear, startOfYear. rewrite Hy.
  destruct (newDate tza (getFullYear tza t) 0 0) as [s |];
    cbn [option_map]; [| reflexivity].
  f_equal. change (1000 * 60 * 60 * 24) with 86400000. unfold msPerDay.
  replace (t + 86400000 - s) with (t - s + 1 * 86400000) by lia.
  rewrite Z.div_add by lia. lia.
Qed.

(** The theorem above from noon UTC of June 21, 2024. *)
Lemma X4_dayOfYear_next_day_witness :
  dayOfYear 0 (1718971200000 + msPerDay)
  = option_map Z.succ (dayOfYear 0 1718971200000).
Proof.
  apply (X4_dayOfYear_next_day 0 1718971200000).
  vm_compute. reflexivity.
Defined.

Lemma newDate_two_digit_year (y : Z) :
  0 <= y <= 99 ->
  MakeDate (MakeDay (if (0 <=? y) && (y <=? 99) then 1900 + y else y) 0 0) 0
  = TimeFromYear (1900 + y) - msPerDay.
Proof.
  intros Hy.
  destruct (Z.leb_spec 0 y), (Z.leb_spec y 99); cbn [andb]; try lia.
  unfold MakeDate, MakeDay, TimeFromYear.
  change (0 / 12) with 0. change (0 mod 12) with 0. cbn [monthStart].
  rewrite !Z.add_0_r. unfold msPerDay. lia.
Qed.

(** X5. For a date whose local year is one of 0..99 the start of the
    year is day 0 of January of the year 1900 + year (December 31 of
    1899 + year), because [new Date(year, 0, 0)] reads such a year as
    1900 + year; the day number is then negative, below -690000. *)
Theorem X5_dayOfYear_of_two_digit_years :
  forall tza t : Z,
    - msPerDay <= tza <= msPerDay ->
    0 <= getFullYear tza t <= 99 ->
    exists d : Z,
      dayOfYear tza t = Some d
      /\ startOfYear tza t
         = Some (UTC tza (TimeFromYear (1900 + getFullYear tza t) - msPerDay))
      /\ d < -690000.
Proof.
  intros tza t Htza Hy.
  assert (Hs : startOfYear tza t
               = Some (UTC tza (TimeFromYear (1900 + getFullYear tza t)
                                - msPerDay))).
  { unfold startOfYear, newDate. rewrite newDate_two_digit_year by exact Hy.
    apply TimeClip_valid.
    unfold validTime, UTC, TimeFromYear, DayFromYear, msPerDay, maxTime in *.
    Z.div_mod_to_equations. lia. }
  eexists. unfold dayOfYear. rewrite Hs.
  change (1000 * 60 * 60 * 24) with 86400000.
  split; [reflexivity |]. split; [reflexivity |].
  pose proof (YearFromTime_spec (LocalTime tza t)) as Hd.
  fold (getFullYear tza t) in Hd.
  set (y := getFullYear tza t) in *.
  unfold UTC, TimeFromYear, msPerDay.
  replace (t - (86400000 * DayFromYear (1900 + y) - 86400000 - tza))
    with (t + tza + (- DayFromYear (1900 + y) + 1) * 86400000) by lia.
  rewrite Z.div_add by lia.
  unfold Day, LocalTime, msPerDay in Hd.
  destruct Hd as [_ Hd].
  assert (Hgap : DayFromYear (y + 1) + 690100 <= DayFromYear (1900 + y))
    by (unfold DayFromYear; Z.div_mod_to_equations; lia).
  lia.
Qed.

Lemma getFullYear_year_50 : getFullYear 0 (-60589296000000) = 50.
Proof. vm_compute. reflexivity. Qed.

(** The theorem above at a time value of the year 50 (UTC). *)
Lemma X5_two_digit_year_witness :
  exists d : Z, dayOfYear 0 (-60589296000000) = Some d /\ d < -690000.
Proof.
  destruct (X5_dayOfYear_of_two_digit_years 0 (-60589296000000))
    as [d [Hd [_ Hlt]]].
  - unfold msPerDay. lia.
  - rewrite getFullYear_year_50. lia.
  - exists d. split; assumption.
Defined.

End DayOfYearMore.

(* ================================================================== *)
(** * Further properties of the orthographic variant                   *)
(* ================================================================== *)

Section OrthoMore.
Import Astro.

Ltac split_ifs :=
  repeat match goal with
         | |- context [if ?b then _ else _] => destruct b
         end.

Lemma Rmin_zoom_out (d : R) : 1 <= d <= 10 -> 1 <= Rmin (d * 1.1) 10 <= 10.
Proof. intros H. unfold Rmin. destruct (Rle_dec (d * 1.1) 10); lra. Qed.

Lemma Rmax_zoom_in (d : R) : 1 <= d <= 10 -> 1 <= Rmax (d * 0.9) 1 <= 10.
Proof. intros H. unfold Rmax. destruct (Rle_dec (d * 0.9) 1); lra. Qed.

Lemma Ortho_ok_move (dx dy : R) (s : Ortho.State) :
  Ortho.state_ok s -> Ortho.state_ok (Ortho.moveSphericCamera dx dy s).
Proof.
  unfold Ortho.state_ok, Ortho.moveSphericCamera, Ortho.with_orbit.
  cbn [Ortho.cameraDistance Ortho.cameraPhi Ortho.root_rotation_x].
  intros [Hd [_ Ht]]. split; [exact Hd |]. split; [| exact Ht].
  apply clamp_range. pose proof PI_gt_2. lra.
Qed.

Lemma Ortho_ok_tiltScene (dz : R) (s : Ortho.State) :
  Ortho.state_ok s -> Ortho.state_ok (Ortho.tiltScene dz s).
Proof.
  unfold Ortho.state_ok, Ortho.tiltScene, Ortho.with_root_rotation_x.
  cbn [Ortho.cameraDistance Ortho.cameraPhi Ortho.root_rotation_x].
  intros [Hd [Hp _]]. split; [exact Hd |]. split; [exact Hp |].
  apply clamp_range. pose proof PI_gt_2. lra.
Qed.

Lemma Ortho_ok_reset (s : Ortho.State) :
  Ortho.state_ok s -> Ortho.state_ok (Ortho.resetCamera s).
Proof.
  unfold Ortho.state_ok, Ortho.resetCamera, Ortho.with_orbit.
  cbn [Ortho.cameraDistance Ortho.cameraPhi Ortho.root_rotation_x].
  unfold DefaultCameraDistance. pose proof PI_gt_2. intros [_ [_ Ht]].
  repeat split; lra.
Qed.

Lemma Ortho_ok_keyDown (aspect : R) (key : string) (s : Ortho.State) :
  Ortho.state_ok s -> Ortho.state_ok (Ortho.handleKeyDown aspect key s).
Proof.
  intros Hs. unfold Ortho.handleKeyDown. split_ifs;
    try (apply Ortho_ok_tiltScene, Hs);
    try (apply Ortho_ok_move, Hs);
    try exact Hs.
  - destruct Hs as [Hd [Hp Ht]].
    unfold Ortho.state_ok, Ortho.handleResize, Ortho.with_frustum,
      Ortho.with_cameraDistance, Ortho.with_orbit.
    cbn [Ortho.cameraDistance Ortho.cameraPhi Ortho.root_rotation_x].
    repeat split; try lra; apply Rmin_zoom_out, Hd.
  - destruct Hs as [Hd [Hp Ht]].
    unfold Ortho.state_ok, Ortho.handleResize, Ortho.with_frustum,
      Ortho.with_cameraDistance, Ortho.with_orbit.
    cbn [Ortho.cameraDistance Ortho.cameraPhi Ortho.root_rotation_x].
    repeat split; try lra; apply Rmax_zoom_in, Hd.
Qed.

Lemma getSunlightAngle_within_quarter_turn (tza now : Z) (a : R) :
  getSunlightAngle tza now = Some a -> - PI / 2 <= a <= PI / 2.
Proof.
  unfold getSunlightAngle. generalize (dayOfYear tza now). intros o.
  destruct o as [d |]; cbn [option_map]; intros H; [| discriminate].
  injection H as <-. unfold sunlightAngleOfDay.
  pose proof (asin_bound (sunlightAngleSINE d)). lra.
Qed.

Lemma Ortho_ok_with_root_rotation_x (a : R) (s : Ortho.State) :
  - PI / 2 <= a <= PI / 2 ->
  Ortho.state_ok s -> Ortho.state_ok (Ortho.with_root_rotation_x a s).
Proof.
  unfold Ortho.state_ok, Ortho.with_root_rotation_x.
  cbn [Ortho.cameraDistance Ortho.cameraPhi Ortho.root_rotation_x].
  intros Ha [Hd [Hp _]]. repeat split; lra.
Qed.

Lemma Ortho_ok_handleResize (aspect : R) (s : Ortho.State) :
  Ortho.state_ok s -> Ortho.state_ok (Ortho.handleResize aspect s).
Proof.
  unfold Ortho.state_ok, Ortho.handleResize, Ortho.with_frustum.
  cbn [Ortho.cameraDistance Ortho.cameraPhi Ortho.root_rotation_x].
  intros H. exact H.
Qed.

Lemma Ortho_ok_with_visible (n m p : bool) (s : Ortho.State) :
  Ortho.state_ok s -> Ortho.state_ok (Ortho.with_visible n m p s).
Proof.
  unfold Ortho.state_ok, Ortho.with_visible.
  cbn [Ortho.cameraDistance Ortho.cameraPhi Ortho.root_rotation_x].
  intros H. exact H.
Qed.

Lemma Ortho_ok_keyUp (tza now : Z) (aspect : R) (key : string)
      (s s' : Ortho.State) :
  Ortho.state_ok s -> Ortho.handleKeyUp tza now aspect key s = Some s' ->
  Ortho.state_ok s'.
Proof.
  intros Hs. unfold Ortho.handleKeyUp.
  generalize (getSunlightAngle_within_quarter_turn tza now).
  generalize (getSunlightAngle tza now). intros o Ho.
  split_ifs; intros H.
  - injection H as <-. apply Ortho_ok_handleResize, Ortho_ok_reset, Hs.
  - injection H as <-. apply Ortho_ok_with_root_rotation_x; [| exact Hs].
    pose proof PI_gt_2. lra.
  - destruct o as [a |]; cbn [option_map] in H; [| discriminate].
    injection H as <-.
    apply Ortho_ok_with_root_rotation_x; [| exact Hs].
    apply Ho. reflexivity.
  - injection H as <-. apply Ortho_ok_with_visible, Hs.
  - injection H as <-. apply Ortho_ok_with_visible, Hs.
  - injection H as <-. exact Hs.
Qed.

Lemma Ortho_ok_dispatch (tza : Z) (ev : Ortho.Event) (s s' : Ortho.State) :
  Ortho.state_ok s -> Ortho.dispatch tza ev s = Some s' -> Ortho.state_ok s'.
Proof.
  intros Hs. destruct ev as [a | e | | e | a k | now a k];
    cbn [Ortho.dispatch]; intros H.
  - injection H as <-. exact Hs.
  - injection H as <-. exact Hs.
  - injection H as <-. exact Hs.
  - injection H as <-. unfold Ortho.handleMouseMove.
    destruct (isDragging (Ortho.drag s)); cbn [negb]; [| exact Hs].
    apply Ortho_ok_move. exact Hs.
  - injection H as <-. apply Ortho_ok_keyDown, Hs.
  - eapply Ortho_ok_keyUp; eassumption.
Qed.

(** X6. In the orthographic variant, whatever events arrive (resizes,
    mouse presses, moves and releases, key presses and releases,
    aligning with the ecliptic among them), a state whose camera
    distance is within 1 and 10, whose polar angle is within 0.001 and
    [PI] and whose scene tilt is within [- PI / 2] and [PI / 2] is taken
    to a state with the same three properties. *)
Theorem X6_ortho_ranges_kept_by_every_event :
  forall (tza : Z) (evs : list Ortho.Event) (s s' : Ortho.State),
    Ortho.state_ok s ->
    Ortho.run tza evs s = Some s' ->
    1 <= Ortho.cameraDistance s' <= 10
    /\ 0.001 <= Ortho.cameraPhi s' <= PI
    /\ - PI / 2 <= Ortho.root_rotation_x s' <= PI / 2.
Proof.
  intros tza evs. induction evs as [| ev evs IH]; intros s s' Hs;
    cbn [Ortho.run].
  - intros H. injection H as <-. exact Hs.
  - destruct (Ortho.dispatch tza ev s) as [s1 |] eqn:E; [| discriminate].
    apply IH. eapply Ortho_ok_dispatch; eassumption.
Qed.

Lemma Ortho_initial_ok (aspect : R) : Ortho.state_ok (Ortho.initial aspect).
Proof.
  unfold Ortho.state_ok, Ortho.initial.
  cbn [Ortho.cameraDistance Ortho.cameraPhi Ortho.root_rotation_x].
  unfold DefaultCameraDistance. pose proof PI_gt_2. repeat split; lra.
Qed.

Lemma Ortho_run_sample :
  Ortho.run 0 [Ortho.KeyDown 2 "q"; Ortho.KeyUp 0 2 "f"] (Ortho.initial 2)
  = Some (Ortho.with_root_rotation_x 0 (Ortho.tiltScene (-1) (Ortho.initial 2))).
Proof. reflexivity. Qed.

(** The theorem above for a tilt key followed by the release of key F,
    from the initial state. *)
Lemma X6_ortho_ranges_witness :
  1 <= Ortho.cameraDistance
         (Ortho.with_root_rotation_x 0 (Ortho.tiltScene (-1) (Ortho.initial 2)))
  <= 10.
Proof.
  apply (X6_ortho_ranges_kept_by_every_event 0
           [Ortho.KeyDown 2 "q"; Ortho.KeyUp 0 2 "f"] (Ortho.initial 2)).
  - apply Ortho_initial_ok.
  - exact Ortho_run_sample.
Defined.

End OrthoMore.

Section OrthoViewVolume.

Ltac split_ifs :=
  repeat match goal with
         | |- context [if ?b then _ else _] => destruct b
         end.

Lemma fits_handleResize (aspect : R) (s : Ortho.State) :
  Ortho.frustum_fits aspect (Ortho.handleResize aspect s).
Proof. reflexivity. Qed.

Lemma fits_move (aspect dx dy : R) (s : Ortho.State) :
  Ortho.frustum_fits aspect s ->
  Ortho.frustum_fits aspect (Ortho.moveSphericCamera dx dy s).
Proof. intros H. exact H. Qed.

Lemma fits_with_drag (aspect : R) (d : Drag) (s : Ortho.State) :
  Ortho.frustum_fits aspect s ->
  Ortho.frustum_fits aspect (Ortho.with_drag d s).
Proof. intros H. exact H. Qed.

Lemma fits_keyDown (aspect : R) (key : string) (s : Ortho.State) :
  Ortho.frustum_fits aspect s ->
  Ortho.frustum_fits aspect (Ortho.handleKeyDown aspect key s).
Proof.
  intros Hs. unfold Ortho.handleKeyDown. split_ifs;
    try exact Hs; apply fits_handleResize.
Qed.

Lemma fits_keyUp (tza now : Z) (aspect : R) (key : string)
      (s s' : Ortho.State) :
  Ortho.frustum_fits aspect s ->
  Ortho.handleKeyUp tza now aspect key s = Some s' ->
  Ortho.frustum_fits aspect s'.
Proof.
  intros Hs. unfold Ortho.handleKeyUp.
  generalize (Astro.getSunlightAngle tza now). intros o.
  split_ifs; intros H.
  - injection H as <-. apply fits_handleResize.
  - injection H as <-. exact Hs.
  - destruct o as [a |]; cbn [option_map] in H; [| discriminate].
    injection H as <-. exact Hs.
  - injection H as <-. exact Hs.
  - injection H as <-. exact Hs.
  - injection H as <-. exact Hs.
Qed.

Lemma fits_dispatch (tza : Z) (aspect : R) (ev : Ortho.Event)
      (s s' : Ortho.State) :
  Ortho.event_aspect aspect ev ->
  Ortho.frustum_fits aspect s ->
  Ortho.dispatch tza ev s = Some s' ->
  Ortho.frustum_fits aspect s'.
Proof.
  intros Ha Hs. destruct ev as [a | e | | e | a k | now a k];
    cbn [Ortho.dispatch Ortho.event_aspect] in *; intros H.
  - injection H as <-. subst a. apply fits_handleResize.
  - injection H as <-. exact Hs.
  - injection H as <-. exact Hs.
  - injection H as <-. unfold Ortho.handleMouseMove.
    destruct (isDragging (Ortho.drag s)); cbn [negb]; [| exact Hs].
    apply fits_move, fits_with_drag, Hs.
  - injection H as <-. subst a. apply fits_keyDown, Hs.
  - subst a. eapply fits_keyUp; eassumption.
Qed.

(** X7. While the window keeps one aspect ratio, the view volume of the
    orthographic camera follows the camera distance through every
    event: if it is [(- d * aspect, d * aspect, d, - d)] for the
    distance [d] before, it is so for the distance after; zooming and
    resetting change the distance and resize the view volume with it. *)
Theorem X7_view_volume_follows_distance :
  forall (tza : Z) (aspect : R) (evs : list Ortho.Event)
         (s s' : Ortho.State),
    Forall (Ortho.event_aspect aspect) evs ->
    Ortho.frustum_fits aspect s ->
    Ortho.run tza evs s = Some s' ->
    Ortho.frustum s'
    = Ortho.mkFrustum (- Ortho.cameraDistance s' * aspect)
        (Ortho.cameraDistance s' * aspect)
        (Ortho.cameraDistance s') (- Ortho.cameraDistance s').
Proof.
  intros tza aspect evs. induction evs as [| ev evs IH];
    intros s s' Ha Hs; cbn [Ortho.run].
  - intros H. injection H as <-. exact Hs.
  - destruct (Ortho.dispatch tza ev s) as [s1 |] eqn:E; [| discriminate].
    inversion Ha as [| ? ? Hev Hrest]; subst.
    apply IH; [exact Hrest |].
    eapply fits_dispatch; eassumption.
Qed.

Lemma Ortho_run_zoom_reset :
  Ortho.run 0 [Ortho.KeyDown 2 "z"; Ortho.KeyUp 0 2 "r"] (Ortho.initial 2)
  = Some (Ortho.handleResize 2
            (Ortho.resetCamera (Ortho.handleKeyDown 2 "z" (Ortho.initial 2)))).
Proof. reflexivity. Qed.

(** The theorem above for a zoom-out followed by a reset, in a window
    twice as wide as high. *)
Lemma X7_view_volume_witness :
  Ortho.frustum
    (Ortho.handleResize 2
       (Ortho.resetCamera (Ortho.handleKeyDown 2 "z" (Ortho.initial 2))))
  = Ortho.mkFrustum (- DefaultCameraDistance * 2) (DefaultCameraDistance * 2)
      DefaultCameraDistance (- DefaultCameraDistance).
Proof.
  apply (X7_view_volume_follows_distance 0 2
           [Ortho.KeyDown 2 "z"; Ortho.KeyUp 0 2 "r"] (Ortho.initial 2)).
  - repeat constructor.
  - reflexivity.
  - exact Ortho_run_zoom_reset.
Defined.

(** X8. Zooming in and then out, or out and then in, does not bring the
    camera distance back: when neither bound is met on the way (the
    distance is between 10/9 and 100/11), either order leaves 0.99 times
    the distance. *)
Theorem X8_zoom_in_and_out_do_not_cancel :
  forall (aspect : R) (s : Ortho.State),
    10 / 9 <= Ortho.cameraDistance s <= 100 / 11 ->
    Ortho.cameraDistance
      (Ortho.handleKeyDown aspect "z" (Ortho.handleKeyDown aspect "c" s))
    = 0.99 * Ortho.cameraDistance s
    /\ Ortho.cameraDistance
         (Ortho.handleKeyDown aspect "c" (Ortho.handleKeyDown aspect "z" s))
       = 0.99 * Ortho.cameraDistance s
    /\ 0.99 * Ortho.cameraDistance s <> Ortho.cameraDistance s.
Proof.
  intros aspect s Hd.
  change (Ortho.cameraDistance
            (Ortho.handleKeyDown aspect "z" (Ortho.handleKeyDown aspect "c" s)))
    with (Rmin (Rmax (Ortho.cameraDistance s * 0.9) 1 * 1.1) 10).
  change (Ortho.cameraDistance
            (Ortho.handleKeyDown aspect "c" (Ortho.handleKeyDown aspect "z" s)))
    with (Rmax (Rmin (Ortho.cameraDistance s * 1.1) 10 * 0.9) 1).
  set (d := Ortho.cameraDistance s) in *.
  split; [| split].
  - rewrite (Rmax_left (d * 0.9) 1) by lra. rewrite Rmin_left by lra. lra.
  - rewrite (Rmin_left (d * 1.1) 10) by lra. rewrite Rmax_left by lra. lra.
  - lra.
Qed.

(** The theorem above at the initial state, whose distance is 1.5. *)
Lemma X8_zoom_witness :
  Ortho.cameraDistance
    (Ortho.handleKeyDown 1 "z" (Ortho.handleKeyDown 1 "c" (Ortho.initial 1)))
  = 0.99 * Ortho.cameraDistance (Ortho.initial 1).
Proof.
  apply (X8_zoom_in_and_out_do_not_cancel 1 (Ortho.initial 1)).
  cbn [Ortho.initial Ortho.cameraDistance]. unfold DefaultCameraDistance. lra.
Defined.

(** X9. With the distance within 1 and 10, zooming out never brings the
    camera closer and zooming in never takes it farther; at distance 10
    zooming out changes nothing and at distance 1 zooming in changes
    nothing.  Neither key moves the camera: it is the view volume that
    is resized. *)
Theorem X9_zoom_direction_and_limits :
  forall (aspect : R) (s : Ortho.State),
    1 <= Ortho.cameraDistance s <= 10 ->
    Ortho.cameraDistance s
    <= Ortho.cameraDistance (Ortho.handleKeyDown aspect "z" s)
    /\ Ortho.cameraDistance (Ortho.handleKeyDown aspect "c" s)
       <= Ortho.cameraDistance s
    /\ Ortho.cameraDistance
         (Ortho.handleKeyDown aspect "z" (Ortho.with_cameraDistance 10 s))
       = 10
    /\ Ortho.cameraDistance
         (Ortho.handleKeyDown aspect "c" (Ortho.with_cameraDistance 1 s))
       = 1
    /\ Ortho.camera (Ortho.handleKeyDown aspect "z" s) = Ortho.camera s
    /\ Ortho.camera (Ortho.handleKeyDown aspect "c" s) = Ortho.camera s.
Proof.
  intros aspect s Hd.
  change (Ortho.cameraDistance (Ortho.handleKeyDown aspect "z" s))
    with (Rmin (Ortho.cameraDistance s * 1.1) 10).
  change (Ortho.cameraDistance (Ortho.handleKeyDown aspect "c" s))
    with (Rmax (Ortho.cameraDistance s * 0.9) 1).
  change (Ortho.cameraDistance
            (Ortho.handleKeyDown aspect "z" (Ortho.with_cameraDistance 10 s)))
    with (Rmin (10 * 1.1) 10).
  change (Ortho.cameraDistance
            (Ortho.handleKeyDown aspect "c" (Ortho.with_cameraDistance 1 s)))
    with (Rmax (1 * 0.9) 1).
  set (d := Ortho.cameraDistance s) in *.
  repeat split.
  - unfold Rmin. destruct (Rle_dec (d * 1.1) 10); lra.
  - unfold Rmax. destruct (Rle_dec (d * 0.9) 1); lra.
  - rewrite Rmin_right by lra. reflexivity.
  - rewrite Rmax_right by lra. reflexivity.
Qed.

(** The theorem above at the initial state. *)
Lemma X9_zoom_direction_witness :
  Ortho.cameraDistance (Ortho.initial 1)
  <= Ortho.cameraDistance (Ortho.handleKeyDown 1 "z" (Ortho.initial 1)).
Proof.
  apply (X9_zoom_direction_and_limits 1 (Ortho.initial 1)).
  cbn [Ortho.initial Ortho.cameraDistance]. unfold DefaultCameraDistance. lra.
Defined.

End OrthoViewVolume.

(* ================================================================== *)
(** * Dragging                                                         *)
(* ================================================================== *)

Section Dragging.

Lemma last_cons_default {A : Type} (a d : A) (l : list A) :
  last (a :: l) d = last l a.
Proof.
  revert a d. induction l as [| b l IH]; intros a d; [reflexivity |].
  change (last (a :: b :: l) d) with (last (b :: l) d).
  rewrite (IH b d), (IH b a). reflexivity.
Qed.

Lemma Ortho_moves_dragging (es : list PointerEvent) (s : Ortho.State) :
  isDragging (Ortho.drag s) = true ->
  isDragging (Ortho.drag (Ortho.moves es s)) = true
  /\ dragStartX (Ortho.drag (Ortho.moves es s))
     = last (map clientX es) (dragStartX (Ortho.drag s))
  /\ Ortho.cameraTheta (Ortho.moves es s)
     = Ortho.cameraTheta s
       + (last (map clientX es) (dragStartX (Ortho.drag s))
          - dragStartX (Ortho.drag s)) * 0.01.
Proof.
  revert s. induction es as [| e es IH]; intros s Hs.
  - cbn [Ortho.moves fold_left map last]. repeat split; [exact Hs | lra].
  - unfold Ortho.moves in *. cbn [fold_left map].
    rewrite last_cons_default.
    assert (Hstep : isDragging (Ortho.drag (Ortho.handleMouseMove e s)) = true
                    /\ dragStartX (Ortho.drag (Ortho.handleMouseMove e s))
                       = clientX e
                    /\ Ortho.cameraTheta (Ortho.handleMouseMove e s)
                       = Ortho.cameraTheta s
                         + (clientX e - dragStartX (Ortho.drag s)) * 0.01).
    { unfold Ortho.handleMouseMove. rewrite Hs. cbn [negb].
      repeat split. }
    destruct Hstep as [H1 [H2 H3]].
    destruct (IH _ H1) as [I1 [I2 I3]].
    rewrite H2 in I2, I3. rewrite H3 in I3.
    split; [exact I1 |]. split; [exact I2 |]. rewrite I3. lra.
Qed.

Lemma Legacy_moves_dragging (es : list PointerEvent) (s : Legacy.State) :
  isDragging (Legacy.drag s) = true ->
  isDragging (Legacy.drag (Legacy.moves es s)) = true
  /\ dragStartX (Legacy.drag (Legacy.moves es s))
     = last (map clientX es) (dragStartX (Legacy.drag s))
  /\ Legacy.theta (Legacy.sphericalCameraAngle (Legacy.moves es s))
     = Legacy.theta (Legacy.sphericalCameraAngle s)
       + (last (map clientX es) (dragStartX (Legacy.drag s))
          - dragStartX (Legacy.drag s)) * 0.01.
Proof.
  revert s. induction es as [| e es IH]; intros s Hs.
  - cbn [Legacy.moves fold_left map last]. repeat split; [exact Hs | lra].
  - unfold Legacy.moves in *. cbn [fold_left map].
    rewrite last_cons_default.
    assert (Hstep :
              isDragging (Legacy.drag (Legacy.handleMouseMove e s)) = true
              /\ dragStartX (Legacy.drag (Legacy.handleMouseMove e s))
                 = clientX e
              /\ Legacy.theta
                   (Legacy.sphericalCameraAngle (Legacy.handleMouseMove e s))
                 = Legacy.theta (Legacy.sphericalCameraAngle s)
                   + (clientX e - dragStartX (Legacy.drag s)) * 0.01).
    { unfold Legacy.handleMouseMove. rewrite Hs. cbn [negb].
      repeat split. }
    destruct Hstep as [H1 [H2 H3]].
    destruct (IH _ H1) as [I1 [I2 I3]].
    rewrite H2 in I2, I3. rewrite H3 in I3.
    split; [exact I1 |]. split; [exact I2 |]. rewrite I3. lra.
Qed.

(** X10. The azimuth after a drag depends only on where the pointer went
    down and where it is now, not on the path between: after a
    mouse-down at [e0] and any series of mouse moves, [theta] is its
    value at the mouse-down plus 0.01 times the horizontal distance from
    [e0] to the last position (orthographic variant and [part_000]; over
    the reals). *)
Theorem X10_drag_azimuth_is_path_independent :
  forall (e0 : PointerEvent) (es : list PointerEvent)
         (so : Ortho.State) (sl : Legacy.State),
    Ortho.cameraTheta (Ortho.moves es (Ortho.handleMouseDown e0 so))
    = Ortho.cameraTheta so
      + (clientX (last es e0) - clientX e0) * 0.01
    /\ Legacy.theta
         (Legacy.sphericalCameraAngle
            (Legacy.moves es (Legacy.handleMouseDown e0 sl)))
       = Legacy.theta (Legacy.sphericalCameraAngle sl)
         + (clientX (last es e0) - clientX e0) * 0.01.
Proof.
  intros e0 es so sl.
  assert (Hl : last (map clientX es) (clientX e0) = clientX (last es e0)).
  { clear. revert e0. induction es as [| e es IH]; intros e0; [reflexivity |].
    cbn [map]. rewrite !last_cons_default. apply IH. }
  split.
  - destruct (Ortho_moves_dragging es (Ortho.handleMouseDown e0 so))
      as [_ [_ H]]; [reflexivity |].
    rewrite H.
    change (dragStartX (Ortho.drag (Ortho.handleMouseDown e0 so)))
      with (clientX e0).
    change (Ortho.cameraTheta (Ortho.handleMouseDown e0 so))
      with (Ortho.cameraTheta so).
    rewrite Hl. reflexivity.
  - destruct (Legacy_moves_dragging es (Legacy.handleMouseDown e0 sl))
      as [_ [_ H]]; [reflexivity |].
    rewrite H.
    change (dragStartX (Legacy.drag (Legacy.handleMouseDown e0 sl)))
      with (clientX e0).
    change (Legacy.theta
              (Legacy.sphericalCameraAngle (Legacy.handleMouseDown e0 sl)))
      with (Legacy.theta (Legacy.sphericalCameraAngle sl)).
    rewrite Hl. reflexivity.
Qed.

Lemma Ortho_moves_idle (es : list PointerEvent) (s : Ortho.State) :
  isDragging (Ortho.drag s) = false -> Ortho.moves es s = s.
Proof.
  intros Hs. induction es as [| e es IH]; [reflexivity |].
  unfold Ortho.moves in *. cbn [fold_left].
  unfold Ortho.handleMouseMove at 2. rewrite Hs. cbn [negb]. exact IH.
Qed.

Lemma Legacy_moves_idle (es : list PointerEvent) (s : Legacy.State) :
  isDragging (Legacy.drag s) = false -> Legacy.moves es s = s.
Proof.
  intros Hs. induction es as [| e es IH]; [reflexivity |].
  unfold Legacy.moves in *. cbn [fold_left].
  unfold Legacy.handleMouseMove at 2. rewrite Hs. cbn [negb]. exact IH.
Qed.

(** X11. Mouse moves change nothing while no button is held: from a
    state that is not dragging, and so after every mouse-up, any series
    of mouse moves leaves the whole state as it was (orthographic
    variant and [part_000]). *)
Theorem X11_moves_without_button_are_ignored :
  forall (es : list PointerEvent) (so : Ortho.State) (sl : Legacy.State),
    isDragging (Ortho.drag so) = false ->
    isDragging (Legacy.drag sl) = false ->
    Ortho.moves es so = so
    /\ Legacy.moves es sl = sl
    /\ Ortho.moves es (Ortho.handleMouseUp so) = Ortho.handleMouseUp so
    /\ Legacy.moves es (Legacy.handleMouseUp sl) = Legacy.handleMouseUp sl.
Proof.
  intros es so sl Ho Hl. repeat split.
  - apply Ortho_moves_idle, Ho.
  - apply Legacy_moves_idle, Hl.
  - apply Ortho_moves_idle. reflexivity.
  - apply Legacy_moves_idle. reflexivity.
Qed.

(** The theorem above for two moves from the initial states. *)
Lemma X11_moves_ignored_witness :
  Ortho.moves [mkPointerEvent 5 5; mkPointerEvent 50 9] (Ortho.initial 1)
  = Ortho.initial 1.
Proof.
  apply (X11_moves_without_button_are_ignored
           [mkPointerEvent 5 5; mkPointerEvent 50 9]
           (Ortho.initial 1) Legacy.initial); reflexivity.
Defined.

End Dragging.

(* ================================================================== *)
(** * Further properties of the perspective variant                    *)
(* ================================================================== *)

Section PerspMore.

Ltac split_ifs :=
  repeat match goal with
         | |- context [if ?b then _ else _] => destruct b
         end.

Lemma Persp_ok_move (dx dy : R) (s : Persp.State) :
  - PI / 2 <= Persp.cameraTilt s <= PI / 2 ->
  Persp.state_ok (Persp.moveSphericCamera dx dy s).
Proof.
  intros Ht. unfold Persp.state_ok, Persp.roll_is_tilt, Persp.moveSphericCamera,
    rotation_z_add, lookAt, position_set.
  cbn [Persp.camera Persp.cameraTilt orientation roll_z].
  split; [lra | exact Ht].
Qed.

Lemma Persp_ok_tiltCamera (dz : R) (s : Persp.State) :
  Persp.state_ok s -> Persp.state_ok (Persp.tiltCamera dz s).
Proof.
  intros [Hr Ht]. unfold Persp.state_ok, Persp.roll_is_tilt in *.
  unfold Persp.tiltCamera, rotation_z_add.
  cbn [Persp.camera Persp.cameraTilt orientation roll_z].
  split; [lra |]. apply clamp_range. pose proof PI_gt_2. lra.
Qed.

Lemma Persp_ok_keyDown (key : string) (s : Persp.State) :
  Persp.state_ok s -> Persp.state_ok (Persp.handleKeyDown key s).
Proof.
  intros Hs. unfold Persp.handleKeyDown. split_ifs;
    try (apply Persp_ok_tiltCamera, Hs);
    try (apply Persp_ok_move, Hs);
    try exact Hs.
  - destruct Hs as [Hr Ht]. unfold Persp.state_ok, Persp.roll_is_tilt in *.
    unfold rotation_z_add.
    cbn [Persp.camera Persp.cameraTilt orientation roll_z].
    pose proof PI_gt_2. split; lra.
  - unfold Persp.state_ok, Persp.roll_is_tilt, Persp.resetCamera, lookAt,
      position_set.
    cbn [Persp.camera Persp.cameraTilt orientation roll_z].
    pose proof PI_gt_2. split; lra.
Qed.

Lemma Persp_ok_dispatch (ev : Persp.Event) (s : Persp.State) :
  Persp.state_ok s -> Persp.state_ok (Persp.dispatch s ev).
Proof.
  intros Hs. destruct ev as [e | | e | k]; cbn [Persp.dispatch].
  - exact Hs.
  - exact Hs.
  - unfold Persp.handleMouseMove.
    destruct (isDragging (Persp.drag s)); cbn [negb]; [| exact Hs].
    apply Persp_ok_move. exact (proj2 Hs).
  - apply Persp_ok_keyDown, Hs.
Qed.

(** X12. In the perspective variant the roll of the camera always is
    the tilt the controller remembers, and that tilt stays within
    [- PI / 2] and [PI / 2]: both hold in the initial state and after
    every mouse and key event (drags point the camera at the planet
    again and put the tilt back on; the tilt keys, key F and the reset
    keep the two in step). *)
Theorem X12_camera_roll_is_the_tilt :
  forall (evs : list Persp.Event),
    roll_z (orientation (Persp.camera (Persp.run evs Persp.initial)))
    = Persp.cameraTilt (Persp.run evs Persp.initial)
    /\ - PI / 2 <= Persp.cameraTilt (Persp.run evs Persp.initial) <= PI / 2.
Proof.
  intros evs.
  assert (H0 : Persp.state_ok Persp.initial).
  { unfold Persp.state_ok, Persp.roll_is_tilt, Persp.initial.
    cbn [Persp.camera Persp.cameraTilt orientation roll_z].
    pose proof PI_gt_2. split; lra. }
  revert H0. generalize Persp.initial.
  induction evs as [| ev evs IH]; intros s Hs.
  - exact Hs.
  - unfold Persp.run in *. cbn [fold_left].
    apply IH, Persp_ok_dispatch, Hs.
Qed.

Lemma Persp_keys_e_q (s : Persp.State) :
  Persp.handleKeyDown "q" (Persp.handleKeyDown "e" s)
  = Persp.tiltCamera (-1) (Persp.tiltCamera 1 s).
Proof. reflexivity. Qed.

(** X13. Tilting one step with key E and one step back with key Q gives
    back the very same state, provided the first step does not run into
    the upper limit (the tilt is at most [PI / 2 - 0.05] and at least
    [- PI / 2]); over the reals. *)
Theorem X13_tilt_step_and_back :
  forall s : Persp.State,
    - PI / 2 <= Persp.cameraTilt s <= PI / 2 - 0.05 ->
    Persp.handleKeyDown "q" (Persp.handleKeyDown "e" s) = s.
Proof.
  intros s Ht. rewrite Persp_keys_e_q.
  destruct s as [th ph t [pos [lf lt r]] d].
  cbn [Persp.cameraTilt] in Ht.
  unfold Persp.tiltCamera at 2. unfold rotation_z_add.
  cbn [Persp.cameraTheta Persp.cameraPhi Persp.cameraTilt Persp.camera
       Persp.drag position orientation look_from look_to roll_z].
  rewrite (clamp_inside (- PI / 2) (PI / 2) (t + 1 * 0.05)) by lra.
  unfold Persp.tiltCamera, rotation_z_add.
  cbn [Persp.cameraTheta Persp.cameraPhi Persp.cameraTilt Persp.camera
       Persp.drag position orientation look_from look_to roll_z].
  replace (t + 1 * 0.05 + -1 * 0.05) with t by lra.
  rewrite (clamp_inside (- PI / 2) (PI / 2) t) by lra.
  replace (r + - t + (t + 1 * 0.05) + - (t + 1 * 0.05) + t) with r by lra.
  reflexivity.
Qed.

(** The theorem above at the initial state. *)
Lemma X13_tilt_step_witness :
  Persp.handleKeyDown "q" (Persp.handleKeyDown "e" Persp.initial)
  = Persp.initial.
Proof.
  apply (X13_tilt_step_and_back Persp.initial).
  cbn [Persp.initial Persp.cameraTilt]. pose proof PI_gt_2. lra.
Defined.

End PerspMore.

Section Markers.

(** X14. In the orthographic variant, releasing key T shows or hides the
    noon and the midnight marker together and releasing it again gives
    back the state before; key G does the same for the pole alone.
    Neither touches the camera. *)
Theorem X14_marker_keys_toggle :
  forall (tza now : Z) (aspect : R) (s : Ortho.State),
    (exists s1,
        Ortho.handleKeyUp tza now aspect "t" s = Some s1
        /\ Ortho.noonMarker_visible s1 = negb (Ortho.noonMarker_visible s)
        /\ Ortho.midnightMarker_visible s1
           = negb (Ortho.midnightMarker_visible s)
        /\ Ortho.pole_visible s1 = Ortho.pole_visible s
        /\ Ortho.camera s1 = Ortho.camera s
        /\ Ortho.handleKeyUp tza now aspect "t" s1 = Some s)
    /\ (exists s1,
           Ortho.handleKeyUp tza now aspect "g" s = Some s1
           /\ Ortho.pole_visible s1 = negb (Ortho.pole_visible s)
           /\ Ortho.noonMarker_visible s1 = Ortho.noonMarker_visible s
           /\ Ortho.midnightMarker_visible s1 = Ortho.midnightMarker_visible s
           /\ Ortho.camera s1 = Ortho.camera s
           /\ Ortho.handleKeyUp tza now aspect "g" s1 = Some s).
Proof.
  intros tza now aspect s. split.
  - exists (Ortho.with_visible (negb (Ortho.noonMarker_visible s))
              (negb (Ortho.midnightMarker_visible s))
              (Ortho.pole_visible s) s).
    repeat split.
    destruct s as [d th ph c f r dr n m p].
    change (Some (Ortho.mkState d th ph c f r dr (negb (negb n))
                    (negb (negb m)) p)
            = Some (Ortho.mkState d th ph c f r dr n m p)).
    rewrite !negb_involutive. reflexivity.
  - exists (Ortho.with_visible (Ortho.noonMarker_visible s)
              (Ortho.midnightMarker_visible s)
              (negb (Ortho.pole_visible s)) s).
    repeat split.
    destruct s as [d th ph c f r dr n m p].
    change (Some (Ortho.mkState d th ph c f r dr n m (negb (negb p)))
            = Some (Ortho.mkState d th ph c f r dr n m p)).
    rewrite !negb_involutive. reflexivity.
Qed.

End Markers.

(* ================================================================== *)
(** * Frame driver                                                     *)
(* ================================================================== *)

Section Frames.
Import FrameDriver.

Lemma times_of_app (c : Call) (a b : list (R * Call)) :
  times_of c (a ++ b)%list = (times_of c a ++ times_of c b)%list.
Proof. unfold times_of. rewrite filter_app, map_app. reflexivity. Qed.

(** What one frame contributes to the time stamps of each call. *)
Lemma times_of_animate (time : R) (t : Timers) :
  times_of CallRender (map (pair time) (snd (animate time t))) = [time]
  /\ times_of CallUpdateEarthRotation (map (pair time) (snd (animate time t)))
     = (if Rlt_dec (1000 * UpdateInterval) (time - lastEarthUpdate t)
        then [time] else [])
  /\ times_of CallUpdateSunlightAngle (map (pair time) (snd (animate time t)))
     = (if Rlt_dec (1000 * 3600) (time - lastSunlightUpdate t)
        then [time] else []).
Proof.
  unfold animate.
  destruct (Rlt_dec (1000 * UpdateInterval) (time - lastEarthUpdate t));
    destruct (Rlt_dec (1000 * 3600) (time - lastSunlightUpdate t));
    repeat split.
Qed.

Lemma frames_cons (time : R) (times : list R) (t : Timers) :
  frames (time :: times) t
  = (fst (frames times (fst (animate time t))),
     (map (pair time) (snd (animate time t))
      ++ snd (frames times (fst (animate time t))))%list).
Proof.
  cbn [frames].
  destruct (animate time t) as [t1 calls]. cbn [fst snd].
  destruct (frames times t1) as [t2 trace]. reflexivity.
Qed.

(** X15. Every animation frame renders exactly once, whether or not it
    resampled anything: over any run of frames, the frames that called
    the renderer are all the frames, once each and in order. *)
Theorem X15_one_render_per_frame :
  forall (times : list R) (t : Timers),
    times_of CallRender (snd (frames times t)) = times.
Proof.
  intros times. induction times as [| time times IH]; intros t.
  - reflexivity.
  - rewrite frames_cons. cbn [snd]. rewrite times_of_app.
    destruct (times_of_animate time t) as [Hr _]. rewrite Hr, IH.
    reflexivity.
Qed.

Lemma spaced_earth (times : list R) (t : Timers) :
  spaced (1000 * UpdateInterval) (lastEarthUpdate t)
    (times_of CallUpdateEarthRotation (snd (frames times t))).
Proof.
  revert t. induction times as [| time times IH]; intros t.
  - exact I.
  - rewrite frames_cons. cbn [snd]. rewrite times_of_app.
    destruct (times_of_animate time t) as [_ [He _]]. rewrite He.
    specialize (IH (fst (animate time t))).
    unfold animate in IH. cbn [fst lastEarthUpdate] in IH.
    unfold animate. cbn [fst].
    destruct (Rlt_dec (1000 * UpdateInterval) (time - lastEarthUpdate t))
      as [Hlt | Hge]; cbn [fst app] in *.
    + cbn [spaced]. split; [exact Hlt | exact IH].
    + exact IH.
Qed.

Lemma spaced_sun (times : list R) (t : Timers) :
  spaced (1000 * 3600) (lastSunlightUpdate t)
    (times_of CallUpdateSunlightAngle (snd (frames times t))).
Proof.
  revert t. induction times as [| time times IH]; intros t.
  - exact I.
  - rewrite frames_cons. cbn [snd]. rewrite times_of_app.
    destruct (times_of_animate time t) as [_ [_ Hs]]. rewrite Hs.
    specialize (IH (fst (animate time t))).
    unfold animate in IH. cbn [fst lastSunlightUpdate] in IH.
    unfold animate. cbn [fst].
    destruct (Rlt_dec (1000 * 3600) (time - lastSunlightUpdate t))
      as [Hlt | Hge]; cbn [fst app] in *.
    + cbn [spaced]. split; [exact Hlt | exact IH].
    + exact IH.
Qed.

(** X16. Resampling is throttled: over any run of frames, each frame
    that resamples the planet rotation has a time stamp more than
    60000 ms after that of the frame which resampled it before (after
    [lastEarthUpdate] for the first), and each frame that resamples the
    sun has one more than 3600000 ms after the previous such frame. *)
Theorem X16_resampling_is_throttled :
  forall (times : list R) (t : Timers),
    spaced 60000 (lastEarthUpdate t)
      (times_of CallUpdateEarthRotation (snd (frames times t)))
    /\ spaced 3600000 (lastSunlightUpdate t)
         (times_of CallUpdateSunlightAngle (snd (frames times t))).
Proof.
  intros times t.
  replace 60000 with (1000 * UpdateInterval) by (unfold UpdateInterval; lra).
  replace 3600000 with (1000 * 3600) by lra.
  split; [apply spaced_earth | apply spaced_sun].
Qed.

(** X17. After a frame with time stamp [time], the planet rotation was
    last resampled at most 60000 ms of frame time before [time] and the
    sun at most 3600000 ms before; a frame resamples the rotation
    exactly when the last resampling is more than 60000 ms back, and
    then records [time]. *)
Theorem X17_samples_are_fresh_after_a_frame :
  forall (time : R) (t : Timers),
    time - lastEarthUpdate (fst (animate time t)) <= 60000
    /\ time - lastSunlightUpdate (fst (animate time t)) <= 3600000
    /\ (lastEarthUpdate (fst (animate time t)) = time
        \/ lastEarthUpdate (fst (animate time t)) = lastEarthUpdate t)
    /\ (lastSunlightUpdate (fst (animate time t)) = time
        \/ lastSunlightUpdate (fst (animate time t)) = lastSunlightUpdate t).
Proof.
  intros time t. unfold animate, UpdateInterval.
  cbn [fst lastEarthUpdate lastSunlightUpdate].
  destruct (Rlt_dec (1000 * 60) (time - lastEarthUpdate t));
    destruct (Rlt_dec (1000 * 3600) (time - lastSunlightUpdate t));
    cbn [fst]; repeat split; try lra; auto.
Qed.

End Frames.

(* ================================================================== *)
(** * Clock and date widgets                                           *)
(* ================================================================== *)

Section Widgets.
Import JSDate Clock.
Local Open Scope Z_scope.

Lemma string_length_append (s1 s2 : string) :
  String.length (s1 ++ s2)%string
  = (String.length s1 + String.length s2)%nat.
Proof.
  induction s1 as [| c s1 IH]; [reflexivity |].
  cbn [String.append String.length]. rewrite IH. reflexivity.
Qed.

(** A number below 100 is shown with exactly two digits. *)
Lemma padStart_two_digits (n : Z) :
  0 <= n < 100 ->
  String.length (padStart 2 "0" (toString n)) = 2%nat
  /\ readDecimal (padStart 2 "0" (toString n)) = Some n.
Proof.
  intros Hn.
  assert (Hk : exists k : nat, n = Z.of_nat k /\ (k < 100)%nat)
    by (exists (Z.to_nat n); lia).
  destruct Hk as [k [-> Hk]]. clear Hn.
  do 100 (destruct k as [| k]; [split; reflexivity |]).
  lia.
Qed.

Lemma DayWithinYear_range (t : Z) :
  0 <= DayWithinYear t < 365 + InLeapYear t.
Proof.
  unfold DayWithinYear, InLeapYear.
  pose proof (YearFromTime_spec t) as H.
  rewrite DayFromYear_succ in H.
  pose proof (DaysInYear_range (YearFromTime t)) as Hr.
  destruct (Z.eqb_spec (DaysInYear (YearFromTime t)) 366); lia.
Qed.

Lemma InLeapYear_range (t : Z) : InLeapYear t = 0 \/ InLeapYear t = 1.
Proof.
  unfold InLeapYear.
  destruct (DaysInYear (YearFromTime t) =? 366); auto.
Qed.

Ltac split_ltb :=
  repeat (match goal with
          | |- context [if ?a <? ?b then _ else _] =>
              destruct (Z.ltb_spec a b)
          end; cbv beta iota).

Lemma MonthFromTime_range (t : Z) : 0 <= MonthFromTime t <= 11.
Proof. unfold MonthFromTime. cbv zeta. split_ltb; lia. Qed.

Lemma DateFromTime_range (t : Z) : 1 <= DateFromTime t <= 31.
Proof.
  pose proof (DayWithinYear_range t) as Hd.
  pose proof (InLeapYear_range t) as Hl.
  unfold DateFromTime, MonthFromTime. cbv zeta.
  set (d := DayWithinYear t) in *. set (l := InLeapYear t) in *.
  split_ltb; lia.
Qed.

(** X18. The clock text always has the shape HH:MM:SS: eight characters,
    two for the local hour, two for the minute and two for the second,
    separated by colons, and each pair of digits reads back as the
    number it shows (hour 0..23, minute and second 0..59). *)
Theorem X18_clock_text_is_HH_MM_SS :
  forall tza now : Z,
    exists hh mm ss : string,
      clockTime tza now = (hh ++ ":" ++ mm ++ ":" ++ ss)%string
      /\ String.length (clockTime tza now) = 8%nat
      /\ String.length hh = 2%nat
      /\ String.length mm = 2%nat
      /\ String.length ss = 2%nat
      /\ readDecimal hh = Some (getHours tza now)
      /\ readDecimal mm = Some (getMinutes tza now)
      /\ readDecimal ss = Some (getSeconds tza now)
      /\ 0 <= getHours tza now <= 23
      /\ 0 <= getMinutes tza now <= 59
      /\ 0 <= getSeconds tza now <= 59.
Proof.
  intros tza now.
  assert (Hh : 0 <= getHours tza now < 24)
    by (apply Z.mod_pos_bound; lia).
  assert (Hm : 0 <= getMinutes tza now < 60)
    by (apply Z.mod_pos_bound; lia).
  assert (Hs : 0 <= getSeconds tza now < 60)
    by (apply Z.mod_pos_bound; lia).
  destruct (padStart_two_digits (getHours tza now)) as [Lh Rh]; [lia |].
  destruct (padStart_two_digits (getMinutes tza now)) as [Lm Rm]; [lia |].
  destruct (padStart_two_digits (getSeconds tza now)) as [Ls Rs]; [lia |].
  exists (padStart 2 "0" (toString (getHours tza now))),
    (padStart 2 "0" (toString (getMinutes tza now))),
    (padStart 2 "0" (toString (getSeconds tza now))).
  split; [reflexivity |].
  split.
  { unfold clockTime. cbv zeta.
    rewrite !string_length_append, Lh, Lm, Ls. reflexivity. }
  repeat split; try assumption; lia.
Qed.

(** X19. The date text is the local year, then the month number (from
    01 to 12, one more than [getMonth]) and the day of the month (from
    01 to 31), each with exactly two digits that read back as the
    number, separated by hyphens. *)
Theorem X19_date_text_is_year_MM_DD :
  forall tza now : Z,
    exists mm dd : string,
      dateText tza now
      = (toString (getFullYear tza now) ++ "-" ++ mm ++ "-" ++ dd)%string
      /\ String.length mm = 2%nat
      /\ String.length dd = 2%nat
      /\ readDecimal mm = Some (getMonth tza now + 1)
      /\ readDecimal dd = Some (getDate tza now)
      /\ 1 <= getMonth tza now + 1 <= 12
      /\ 1 <= getDate tza now <= 31.
Proof.
  intros tza now.
  pose proof (MonthFromTime_range (LocalTime tza now)) as Hm.
  pose proof (DateFromTime_range (LocalTime tza now)) as Hd.
  fold (getMonth tza now) in Hm. fold (getDate tza now) in Hd.
  destruct (padStart_two_digits (getMonth tza now + 1)) as [Lm Rm]; [lia |].
  destruct (padStart_two_digits (getDate tza now)) as [Ld Rd]; [lia |].
  exists (padStart 2 "0" (toString (getMonth tza now + 1))),
    (padStart 2 "0" (toString (getDate tza now))).
  split; [reflexivity |].
  repeat split; try assumption; lia.
Qed.

Lemma updateDate_shows (tza now : Z) (p : Page) :
  date_shown p ->
  date_innerHTML (updateDate tza now p) = dateText tza now
  /\ lastDate (updateDate tza now p) = Some (dateText tza now).
Proof.
  unfold date_shown, updateDate. cbv zeta.
  generalize (dateText tza now). intros date.
  destruct (lastDate p) as [d |] eqn:E; cbn [option_string_eqb negb].
  - destruct (String.eqb_spec d date) as [-> | Hne]; cbn [negb].
    + intros ->. rewrite E. split; reflexivity.
    + intros _. split; reflexivity.
  - intros _. split; reflexivity.
Qed.

Lemma updateDate_keeps_shown (tza now : Z) (p : Page) :
  date_shown p -> date_shown (updateDate tza now p).
Proof.
  intros H. destruct (updateDate_shows tza now p H) as [H1 H2].
  unfold date_shown. rewrite H2. exact H1.
Qed.

Lemma updateDates_keeps_shown (tza : Z) (nows : list Z) (p : Page) :
  date_shown p -> date_shown (updateDates tza nows p).
Proof.
  revert p. induction nows as [| now nows IH]; intros p H; [exact H |].
  unfold updateDates in *. cbn [fold_left].
  apply IH, updateDate_keeps_shown, H.
Qed.

Lemma dateWrites_same_date (tza : Z) (nows : list Z) (p : Page) (d : string) :
  Forall (fun now => dateText tza now = d) nows ->
  lastDate p = Some d ->
  dateWrites tza nows p = 0%nat /\ updateDates tza nows p = p.
Proof.
  revert p. induction nows as [| now nows IH]; intros p Hall Hp.
  - split; reflexivity.
  - inversion Hall as [| ? ? Hd Hrest]; subst.
    assert (Hu : updateDate tza now p = p).
    { unfold updateDate. cbv zeta. rewrite Hp. cbn [option_string_eqb].
      rewrite String.eqb_refl. reflexivity. }
    cbn [dateWrites]. unfold updateDates. cbn [fold_left].
    rewrite Hu, Hp. cbn [option_string_eqb].
    rewrite String.eqb_refl. cbn [negb].
    destruct (IH p Hrest Hp) as [I1 I2].
    rewrite I1. split; [reflexivity | exact I2].
Qed.

(** X20. The cache of [updateDate] does not show: starting with
    [lastDate] undefined (or with the element showing [lastDate]),
    after any calls the element shows the date text of the latest call.
    While the date text stays the same the element is written at most
    once, however many calls there are. *)
Theorem X20_date_cache_is_transparent :
  forall (tza : Z) (nows : list Z) (now : Z) (p : Page) (d : string),
    date_shown p ->
    Forall (fun n => dateText tza n = d) nows ->
    date_innerHTML (updateDates tza (nows ++ [now]) p) = dateText tza now
    /\ lastDate (updateDates tza (nows ++ [now]) p) = Some (dateText tza now)
    /\ (dateWrites tza nows p <= 1)%nat.
Proof.
  intros tza nows now p d Hp Hall.
  split; [| split].
  - unfold updateDates. rewrite fold_left_app. cbn [fold_left].
    apply updateDate_shows. apply (updateDates_keeps_shown tza nows p Hp).
  - unfold updateDates. rewrite fold_left_app. cbn [fold_left].
    apply updateDate_shows. apply (updateDates_keeps_shown tza nows p Hp).
  - destruct nows as [| n nows]; [cbn; lia |].
    inversion Hall as [| ? ? Hd Hrest]; subst.
    cbn [dateWrites].
    assert (Hl : lastDate (updateDate tza n p) = Some (dateText tza n)).
    { apply updateDate_shows, Hp. }
    destruct (dateWrites_same_date tza nows (updateDate tza n p)
                (dateText tza n) Hrest Hl) as [H0 _].
    rewrite H0.
    destruct (negb (option_string_eqb (lastDate p) (dateText tza n))); lia.
Qed.

(** The theorem above for three calls on June 21, 2024 and one a day
    later, on a page that has not been written yet. *)
Lemma X20_date_cache_witness :
  date_innerHTML
    (updateDates 0
       ([1718971200000; 1718971200016; 1718971200033] ++ [1719057600000])
       (mkPage "" "" None))
  = dateText 0 1719057600000.
Proof.
  apply (X20_date_cache_is_transparent 0
           [1718971200000; 1718971200016; 1718971200033] 1719057600000
           (mkPage "" "" None) "2024-06-21").
  - exact I.
  - repeat constructor.
Defined.

End Widgets.
